(** * The remember-me token ledger of the login gateway

    A shallow embedding of [models/RememberToken.js] (token issuance,
    validation, deletion and the start-up sweep), of [config/database.js]
    and of the routes and strategies of the server that call them,
    together with the parts of their environment that decide their
    behaviour: the [remember_tokens] table
    of the MariaDB store, the connection and its transaction, the host
    clock ([new Date()]), the database clock ([NOW()]) and the entropy of
    [crypto.randomBytes].

    Modelling conventions.
    - A call of an [async] function is a computation in the monad [M]: it
      threads the [world] (the table, the undo log of the connection and the
      faults the storage layer is about to raise) and either returns a value
      or throws. Calls run one after the other.
    - What the function reads from outside (the random bytes, the two
      clocks, the faults of the storage layer) is an argument of the call.
    - A fault of the storage layer stands for whatever makes the driver
      reject a call for a reason the table does not decide (a lost
      connection, a time-out, a value too wide for its column); it strikes
      before the call has an effect. The NOT NULL and UNIQUE constraints,
      which the table decides, are modelled.
    - Timestamps are integers, in milliseconds since the epoch, on one time
      line for the host and the database; a DATETIME column holds the
      timestamp it was given.
    - Strings of the table are compared up to its collation.
    - The surrogate key [id] of a row is never read by the module and is
      left out of [row.t]. *)

From Stdlib Require Import ZArith List String Ascii Bool Lia.
From Stdlib.Strings Require Import Byte.
Import ListNotations.
Open Scope string_scope.
Open Scope Z_scope.

(** ** Identities and rows *)

(** [provider ENUM('google', 'facebook', 'microsoft')] *)
Inductive Provider : Type := google | facebook | microsoft.

Definition Provider_eqb (a b : Provider) : bool :=
  match a, b with
  | google, google | facebook, facebook | microsoft, microsoft => true
  | _, _ => false
  end.

(** The [user] object built by the passport strategies: the e-mail and the
    photo are [null] when the provider's profile has none. *)
Module user.
Record t : Type := mk {
  id : string;
  provider : Provider;
  name : string;
  email : option string;
  photo : option string
}.
End user.

(** A row of [remember_tokens]; [userPhoto] is the only nullable column. *)
Module row.
Record t : Type := mk {
  token : string;
  userId : string;
  provider : Provider;
  userEmail : string;
  userName : string;
  userPhoto : option string;
  expiresAt : Z;
  createdAt : Z;
  lastUsed : Z
}.

Definition with_lastUsed (now : Z) (r : t) : t :=
  mk (token r) (userId r) (provider r) (userEmail r) (userName r)
     (userPhoto r) (expiresAt r) (createdAt r) now.
End row.

(** ** Collation

    The table is declared [COLLATE=utf8mb4_unicode_ci]: [=] on its VARCHAR
    columns, and the UNIQUE index on [token], compare strings up to the
    collation, an equivalence coarser than equality of strings. *)
Record collation : Type := {
  coll_eqb : string -> string -> bool;
  coll_refl : forall a, coll_eqb a a = true;
  coll_sym : forall a b, coll_eqb a b = coll_eqb b a;
  coll_trans : forall a b c,
      coll_eqb a b = true -> coll_eqb b c = true -> coll_eqb a c = true
}.

(** The binary collation: equality of strings. *)
Definition binary : collation.
Proof.
  refine {| coll_eqb := String.eqb;
            coll_refl := String.eqb_refl;
            coll_sym := String.eqb_sym;
            coll_trans := _ |}.
  intros a b c Hab Hbc.
  apply String.eqb_eq in Hab. apply String.eqb_eq in Hbc.
  subst. apply String.eqb_refl.
Defined.

(** [WHERE token = ?] *)
Definition token_is (C : collation) (tok : string) (r : row.t) : bool :=
  coll_eqb C (row.token r) tok.

(** [WHERE userId = ? AND provider = ?] *)
Definition user_is (C : collation) (uid : string) (p : Provider) (r : row.t) : bool :=
  coll_eqb C (row.userId r) uid && Provider_eqb (row.provider r) p.

(** [WHERE expiresAt < NOW()] *)
Definition expired_at (now : Z) (r : row.t) : bool :=
  row.expiresAt r <? now.

(** ** The Date object of the host (ECMA-262, Date objects) *)
Module Date.

Definition msPerDay : Z := 86400000.

Definition Day (t : Z) : Z := t / msPerDay.
Definition TimeWithinDay (t : Z) : Z := t mod msPerDay.

Definition DaysInYear (y : Z) : Z :=
  if negb (y mod 4 =? 0) then 365
  else if negb (y mod 100 =? 0) then 366
  else if negb (y mod 400 =? 0) then 365
  else 366.

Definition DayFromYear (y : Z) : Z :=
  365 * (y - 1970) + (y - 1969) / 4 - (y - 1901) / 100 + (y - 1601) / 400.

(** The largest year [y] with [DayFromYear y <= d], by a search upwards
    from a year that is not after it. *)
Fixpoint year_search (fuel : nat) (y d : Z) : Z :=
  match fuel with
  | O => y
  | S fuel' =>
      if DayFromYear (y + 1) <=? d then year_search fuel' (y + 1) d else y
  end.

Definition YearFromDay (d : Z) : Z :=
  let y0 := 1970 + (if 0 <=? d then d / 366 else d / 365) in
  year_search (Z.to_nat (Z.abs d / 100000 + 3)) y0 d.

Definition YearFromTime (t : Z) : Z := YearFromDay (Day t).

Definition InLeapYear (t : Z) : Z :=
  if DaysInYear (YearFromTime t) =? 366 then 1 else 0.

Definition DayWithinYear (t : Z) : Z :=
  Day t - DayFromYear (YearFromTime t).

Definition MonthFromTime (t : Z) : Z :=
  let d := DayWithinYear t in
  let L := InLeapYear t in
  if d <? 31 then 0
  else if d <? 59 + L then 1
  else if d <? 90 + L then 2
  else if d <? 120 + L then 3
  else if d <? 151 + L then 4
  else if d <? 181 + L then 5
  else if d <? 212 + L then 6
  else if d <? 243 + L then 7
  else if d <? 273 + L then 8
  else if d <? 304 + L then 9
  else if d <? 334 + L then 10
  else 11.

(** The day number, within its year, of the first day of month [m]. *)
Definition MonthStart (m L : Z) : Z :=
  match m with
  | 0 => 0
  | 1 => 31
  | 2 => 59 + L
  | 3 => 90 + L
  | 4 => 120 + L
  | 5 => 151 + L
  | 6 => 181 + L
  | 7 => 212 + L
  | 8 => 243 + L
  | 9 => 273 + L
  | 10 => 304 + L
  | _ => 334 + L
  end.

Definition DateFromTime (t : Z) : Z :=
  let d := DayWithinYear t in
  let L := InLeapYear t in
  match MonthFromTime t with
  | 0 => d + 1
  | 1 => d - 30
  | 2 => d - 58 - L
  | 3 => d - 89 - L
  | 4 => d - 119 - L
  | 5 => d - 150 - L
  | 6 => d - 180 - L
  | 7 => d - 211 - L
  | 8 => d - 242 - L
  | 9 => d - 272 - L
  | 10 => d - 303 - L
  | _ => d - 333 - L
  end.

(** [MakeDay]: the day number of day [date] of month [month] of [year];
    months and dates out of range carry over. *)
Definition MakeDay (year month date : Z) : Z :=
  let ym := year + month / 12 in
  let mn := month mod 12 in
  let L := if DaysInYear ym =? 366 then 1 else 0 in
  DayFromYear ym + MonthStart mn L + date - 1.

Definition MakeDate (day time : Z) : Z := day * msPerDay + time.

(** [TimeClip]: a time value out of range is NaN (an Invalid Date). *)
Definition TimeClip (t : Z) : option Z :=
  if 8640000000000000 <? Z.abs t then None else Some t.

(** The time zone of the host: its offset from UTC, in milliseconds, at a
    UTC instant ([isUTC = true]) or at a local time ([isUTC = false]). *)
Record zone : Type := {
  LocalTZA : Z -> bool -> Z;
  LocalTZA_bound : forall t isUTC, Z.abs (LocalTZA t isUTC) <= msPerDay
}.

Definition LocalTime (z : zone) (t : Z) : Z := t + LocalTZA z t true.
Definition UTC (z : zone) (t : Z) : Z := t - LocalTZA z t false.

(** [d.getDate()] *)
Definition getDate (z : zone) (t : Z) : Z := DateFromTime (LocalTime z t).

(** [d.setDate(dt)]: the new time value of [d], [None] for NaN. *)
Definition setDate (z : zone) (t : Z) (dt : Z) : option Z :=
  let lt := LocalTime z t in
  let newDate :=
    MakeDate (MakeDay (YearFromTime lt) (MonthFromTime lt) dt) (TimeWithinDay lt) in
  TimeClip (UTC z newDate).

End Date.

(** ** The world and the monad of asynchronous calls *)

(** A MariaDB error, as the driver raises it. *)
Inductive error : Type :=
| ER_GET_CONNECTION_TIMEOUT   (* the pool gave no connection *)
| ER_SOCKET_UNEXPECTED_CLOSE  (* the storage layer failed the call *)
| ER_NO_SUCH_TABLE            (* [remember_tokens] was never created *)
| ER_BAD_NULL_ERROR           (* NULL for a NOT NULL column *)
| ER_TRUNCATED_WRONG_VALUE    (* an Invalid Date for a DATETIME column *)
| ER_DUP_ENTRY.               (* the UNIQUE index on [token] *)

(** How a call ends: [return a] or [throw e]. *)
Inductive outcome (A : Type) : Type :=
| Returned (a : A)
| Thrown (e : error).
Arguments Returned {A} a.
Arguments Thrown {A} e.

(** The table [remember_tokens], [None] as long as it is not created. *)
Definition store : Type := option (list row.t).

(** The world of a call: the table as the connection sees it, the table to
    restore should the open transaction be rolled back ([None]: no
    transaction is open), and the faults of the storage layer, one entry
    per call to it ([true]: that call fails; past the end, none does). *)
Record world : Type := mkWorld {
  table : store;
  undo : option store;
  pending : list bool
}.

Definition M (A : Type) : Type := world -> outcome A * world.

Definition ret {A} (a : A) : M A := fun w => (Returned a, w).

Definition throw {A} (e : error) : M A := fun w => (Thrown e, w).

Definition bind {A B} (m : M A) (k : A -> M B) : M B :=
  fun w =>
    match m w with
    | (Returned a, w') => k a w'
    | (Thrown e, w') => (Thrown e, w')
    end.

Declare Scope async_scope.
Delimit Scope async_scope with async.
Notation "x <- m ;; k" := (bind m (fun x => k))
  (at level 61, m at next level, right associativity) : async_scope.
Notation "m ;; k" := (bind m (fun _ => k))
  (at level 61, right associativity) : async_scope.
Open Scope async_scope.

(** [try { body } catch (error) { handler }] *)
Definition try_catch {A} (body : M A) (handler : error -> M A) : M A :=
  fun w =>
    match body w with
    | (Returned a, w') => (Returned a, w')
    | (Thrown e, w') => handler e w'
    end.

(** [try { body } finally { cleanup }], for a cleanup that does not throw. *)
Definition try_finally {A} (body : M A) (cleanup : world -> world) : M A :=
  fun w => let (o, w') := body w in (o, cleanup w').

(** One call to the storage layer: it fails with [e] when the next pending
    fault says so. *)
Definition storage_call (e : error) : M unit :=
  fun w =>
    match pending w with
    | [] => (Returned tt, w)
    | false :: fs => (Returned tt, mkWorld (table w) (undo w) fs)
    | true :: fs => (Thrown e, mkWorld (table w) (undo w) fs)
    end.

Definition set_table (t : store) : M unit :=
  fun w => (Returned tt, mkWorld t (undo w) (pending w)).

(** A statement on [remember_tokens]: a call to the storage layer, which
    then needs the table. *)
Definition on_table {A} (k : list row.t -> M A) : M A :=
  storage_call ER_SOCKET_UNEXPECTED_CLOSE ;;
  fun w =>
    match table w with
    | Some rows => k rows w
    | None => (Thrown ER_NO_SUCH_TABLE, w)
    end.

(** *** The connection ([config/database.js] and the driver) *)

(** [db.getConnection()]: a connection of the pool, outside a transaction. *)
Definition getConnection : M unit :=
  storage_call ER_GET_CONNECTION_TIMEOUT.

(** [conn.beginTransaction()] *)
Definition beginTransaction : M unit :=
  storage_call ER_SOCKET_UNEXPECTED_CLOSE ;;
  fun w => (Returned tt, mkWorld (table w) (Some (table w)) (pending w)).

(** [conn.commit()] *)
Definition commit : M unit :=
  storage_call ER_SOCKET_UNEXPECTED_CLOSE ;;
  fun w => (Returned tt, mkWorld (table w) None (pending w)).

(** What a rollback does to the world. *)
Definition rolled_back (w : world) : world :=
  match undo w with
  | Some t => mkWorld t None (pending w)
  | None => w
  end.

(** [conn.rollback()] *)
Definition rollback : M unit :=
  storage_call ER_SOCKET_UNEXPECTED_CLOSE ;;
  fun w => (Returned tt, rolled_back w).

(** [conn.release()]: the pool rolls back what the connection left open.
    The module does not await it. *)
Definition release (w : world) : world := rolled_back w.

(** *** The statements of the module *)

(** [DELETE FROM remember_tokens WHERE userId = ? AND provider = ?];
    returns [affectedRows]. *)
Definition DELETE_WHERE_userId_AND_provider
    (C : collation) (uid : string) (p : Provider) : M Z :=
  on_table (fun rows =>
    set_table (Some (filter (fun r => negb (user_is C uid p r)) rows)) ;;
    ret (Z.of_nat (List.length (filter (user_is C uid p) rows)))).

(** [INSERT INTO remember_tokens (token, userId, provider, userEmail,
    userName, userPhoto, expiresAt, createdAt, lastUsed)
    VALUES (?, ?, ?, ?, ?, ?, ?, NOW(), NOW())] *)
Definition INSERT
    (C : collation) (tok uid : string) (p : Provider)
    (mail : option string) (nm : string) (pic : option string)
    (expires : option Z) (NOW : Z) : M unit :=
  on_table (fun rows =>
    match mail, expires with
    | None, _ => throw ER_BAD_NULL_ERROR
    | Some mail', None => throw ER_TRUNCATED_WRONG_VALUE
    | Some mail', Some expires' =>
        if existsb (token_is C tok) rows then throw ER_DUP_ENTRY
        else set_table
               (Some (rows ++ [row.mk tok uid p mail' nm pic expires' NOW NOW])%list)
    end).

(** [SELECT * FROM remember_tokens WHERE token = ?] *)
Definition SELECT_WHERE_token (C : collation) (tok : string) : M (list row.t) :=
  on_table (fun rows => ret (filter (token_is C tok) rows)).

(** [DELETE FROM remember_tokens WHERE token = ?]; returns [affectedRows]. *)
Definition DELETE_WHERE_token (C : collation) (tok : string) : M Z :=
  on_table (fun rows =>
    set_table (Some (filter (fun r => negb (token_is C tok r)) rows)) ;;
    ret (Z.of_nat (List.length (filter (token_is C tok) rows)))).

(** [UPDATE remember_tokens SET lastUsed = NOW() WHERE token = ?] *)
Definition UPDATE_lastUsed (C : collation) (tok : string) (NOW : Z) : M unit :=
  on_table (fun rows =>
    set_table
      (Some (map (fun r => if token_is C tok r then row.with_lastUsed NOW r else r)
                 rows))).

(** [CREATE TABLE IF NOT EXISTS remember_tokens (...)] *)
Definition CREATE_TABLE_IF_NOT_EXISTS : M unit :=
  storage_call ER_SOCKET_UNEXPECTED_CLOSE ;;
  fun w =>
    match table w with
    | Some _ => (Returned tt, w)
    | None => (Returned tt, mkWorld (Some []) (undo w) (pending w))
    end.

(** [DELETE FROM remember_tokens WHERE expiresAt < NOW()] *)
Definition DELETE_WHERE_expired (NOW : Z) : M Z :=
  on_table (fun rows =>
    set_table (Some (filter (fun r => negb (expired_at NOW r)) rows)) ;;
    ret (Z.of_nat (List.length (filter (expired_at NOW) rows)))).

(** [SELECT 1] *)
Definition SELECT_1 : M unit :=
  storage_call ER_SOCKET_UNEXPECTED_CLOSE.

(** ** [models/RememberToken.js] *)

Definition hex_digit (n : N) : ascii :=
  match n with
  | 0%N => "0" | 1%N => "1" | 2%N => "2" | 3%N => "3"
  | 4%N => "4" | 5%N => "5" | 6%N => "6" | 7%N => "7"
  | 8%N => "8" | 9%N => "9" | 10%N => "a" | 11%N => "b"
  | 12%N => "c" | 13%N => "d" | 14%N => "e" | _ => "f"
  end%char.

(** [buffer.toString('hex')] *)
Fixpoint toString_hex (buffer : list byte) : string :=
  match buffer with
  | [] => EmptyString
  | b :: rest =>
      String (hex_digit (Byte.to_N b / 16))
        (String (hex_digit (Byte.to_N b mod 16)) (toString_hex rest))
  end.

(** [generateToken()], over the [crypto.randomBytes] of the call. *)
Definition generateToken (randomBytes : nat -> list byte) : string :=
  toString_hex (randomBytes 32%nat).

(** [user.photo || null]: the empty string is falsy. *)
Definition or_null (photo : option string) : option string :=
  match photo with
  | Some EmptyString => None
  | other => other
  end.

(** [createToken(user, rememberDays = 30)].
    [now] is the host clock at [new Date()], [NOW] the database clock at the
    INSERT. *)
Definition createToken
    (z : Date.zone) (C : collation)
    (u : user.t) (rememberDays : option Z)
    (randomBytes : nat -> list byte) (now NOW : Z) : M string :=
  let rememberDays := match rememberDays with Some d => d | None => 30 end in
  let token := generateToken randomBytes in
  let expiresAt := Date.setDate z now (Date.getDate z now + rememberDays) in
  getConnection ;;
  try_finally
    (try_catch
       (beginTransaction ;;
        DELETE_WHERE_userId_AND_provider C (user.id u) (user.provider u) ;;
        INSERT C token (user.id u) (user.provider u) (user.email u)
               (user.name u) (or_null (user.photo u)) expiresAt NOW ;;
        commit ;;
        ret token)
       (fun error => rollback ;; throw error))
    release.

(** [validateToken(token)]; [None] is [null].
    [now] is the host clock at the expiry check, [NOW] the database clock
    at the UPDATE. *)
Definition validateToken
    (C : collation) (token : string) (now NOW : Z) : M (option user.t) :=
  getConnection ;;
  try_finally
    (try_catch
       (rows <- SELECT_WHERE_token C token ;;
        match rows with
        | [] => ret None
        | rememberToken :: _ =>
            if row.expiresAt rememberToken <? now then
              DELETE_WHERE_token C token ;;
              ret None
            else
              UPDATE_lastUsed C token NOW ;;
              ret (Some (user.mk (row.userId rememberToken)
                                 (row.provider rememberToken)
                                 (row.userName rememberToken)
                                 (Some (row.userEmail rememberToken))
                                 (row.userPhoto rememberToken)))
        end)
       (fun error => throw error))
    release.

(** [deleteToken(token)] *)
Definition deleteToken (C : collation) (token : string) : M bool :=
  getConnection ;;
  try_finally
    (try_catch
       (result <- DELETE_WHERE_token C token ;;
        ret (0 <? result))
       (fun error => throw error))
    release.

(** [initializeTable()]; [NOW] is the database clock at the sweep. *)
Definition initializeTable (NOW : Z) : M unit :=
  getConnection ;;
  try_finally
    (try_catch
       (CREATE_TABLE_IF_NOT_EXISTS ;;
        DELETE_WHERE_expired NOW ;;
        ret tt)
       (fun error => throw error))
    release.

(** ** The start of the server *)

(** [db.testConnection()]: the connection is released when there is one. *)
Definition testConnection : M bool :=
  try_catch
    (getConnection ;;
     try_finally (SELECT_1 ;; ret true) release)
    (fun error => ret false).

(** The start-up block of the server: connect, then initialize the table;
    a failure is logged and the server goes on. *)
Definition startup (NOW : Z) : M unit :=
  connected <- testConnection ;;
  if connected then
    try_catch (initializeTable NOW) (fun error => ret tt)
  else ret tt.

(** ** The routes of the server

    A handler is a call in [M] that returns what it did to [req] and [res],
    in order. Inside a [try] of the handlers the call that can throw comes
    before anything is done to [res], so that what the handler did before a
    throw is nothing. *)

(** A JSON value of a response body. *)
#[warnings="-register-all"]
Inductive JSON : Type :=
| JNull
| JBool (b : bool)
| JString (s : string)
| JObject (fields : list (string * JSON)).

(** What a handler does to [req] and [res]. *)
Inductive action : Type :=
| res_cookie (name value : string) (maxAge : Z)
             (httpOnly secure : bool) (sameSite : string)
| res_clearCookie (name : string)
| res_status (code : Z)
| res_json (body : JSON)
| res_redirect (url : string)
| req_login (u : user.t)
| req_logout.

Definition Provider_name (p : Provider) : string :=
  match p with
  | google => "google"
  | facebook => "facebook"
  | microsoft => "microsoft"
  end.

Definition JSON_of_nullable (s : option string) : JSON :=
  match s with Some s' => JString s' | None => JNull end.

(** The [user] object in a body. *)
Definition JSON_of_user (u : user.t) : JSON :=
  JObject [("id", JString (user.id u));
           ("provider", JString (Provider_name (user.provider u)));
           ("name", JString (user.name u));
           ("email", JSON_of_nullable (user.email u));
           ("photo", JSON_of_nullable (user.photo u))].

(** A string that may be [undefined], as a condition: [undefined] and the
    empty string are falsy. *)
Definition truthy (s : option string) : bool :=
  match s with
  | Some (String _ _) => true
  | _ => false
  end.

(** [s.includes(searchString)] *)
Fixpoint includes (searchString s : string) : bool :=
  String.prefix searchString s
  || match s with
     | String _ s' => includes searchString s'
     | EmptyString => false
     end.

(** The [profile] a passport strategy hands to its verify function;
    [emails] and [photos] are arrays of [{ value }], or [undefined]. *)
Module profile.
Record t : Type := mk {
  id : string;
  displayName : string;
  emails : option (list string);
  photos : option (list string)
}.
End profile.

(** How a verify function ends: [done(null, user)], or a TypeError for a
    property read off [undefined]. *)
Inductive verified : Type :=
| done (u : user.t)
| TypeError.

(** The verify function of the GoogleStrategy. *)
Definition google_verify (p : profile.t) : verified :=
  match profile.emails p, profile.photos p with
  | Some (email :: _), Some (photo :: _) =>
      done (user.mk (profile.id p) google (profile.displayName p)
                    (Some email) (Some photo))
  | _, _ => TypeError
  end.

(** The verify function of the FacebookStrategy. *)
Definition facebook_verify (p : profile.t) : verified :=
  match profile.emails p, profile.photos p with
  | Some [], _ => TypeError
  | _, Some [] => TypeError
  | emails, photos =>
      done (user.mk (profile.id p) facebook (profile.displayName p)
                    (match emails with Some (email :: _) => Some email | _ => None end)
                    (match photos with Some (photo :: _) => Some photo | _ => None end))
  end.

(** The verify function of the MicrosoftStrategy. *)
Definition microsoft_verify (p : profile.t) : verified :=
  match profile.emails p with
  | Some [] => TypeError
  | emails =>
      done (user.mk (profile.id p) microsoft (profile.displayName p)
                    (match emails with Some (email :: _) => Some email | _ => None end)
                    None)
  end.

(** [GET /auth/google], [/auth/facebook], [/auth/microsoft]: the
    [req.session.rememberMe] they store, [req.query.remember === 'true']. *)
Definition auth_start (remember : option string) : option bool :=
  Some (match remember with
        | Some s => String.eqb s "true"
        | None => false
        end).

Definition callback_message (route : Provider) : string :=
  match route with
  | google => "Google authentication successful"
  | facebook => "Facebook authentication successful"
  | microsoft => "Microsoft authentication successful"
  end.

Definition callback_body (route : Provider) (u : user.t) (rememberMe : bool) : JSON :=
  JObject [("success", JBool true);
           ("message", JString (callback_message route));
           ("user", JSON_of_user u);
           ("rememberMe", JBool rememberMe)].

(** [GET /auth/google/callback], [/auth/facebook/callback] and
    [/auth/microsoft/callback], once passport has authenticated [req.user]:
    the three handlers differ in their message. [session_rememberMe] is
    [req.session.rememberMe], [accept] is [req.headers.accept] and
    [NODE_ENV] is [process.env.NODE_ENV]. *)
Definition auth_callback
    (z : Date.zone) (C : collation) (NODE_ENV : option string)
    (route : Provider) (session_rememberMe : option bool)
    (req_user : user.t) (accept : option string)
    (randomBytes : nat -> list byte) (now NOW : Z) : M (list action) :=
  try_catch
    (let rememberMe :=
       match session_rememberMe with Some b => b | None => false end in
     cookies <-
       (if rememberMe then
          token <- createToken z C req_user None randomBytes now NOW ;;
          ret [res_cookie "remember_token" token (30 * 24 * 60 * 60 * 1000)
                          true
                          (match NODE_ENV with
                           | Some env => String.eqb env "production"
                           | None => false
                           end)
                          "lax"]
        else ret []) ;;
     if truthy accept
        && match accept with Some a => includes "text/html" a | None => false end
     then ret (cookies ++ [res_redirect "/login?success=true"])%list
     else ret (cookies ++ [res_json (callback_body route req_user rememberMe)])%list)
    (fun error => ret [res_json (callback_body route req_user false)]).

(** [GET /auth/logout]; [rememberToken] is [req.cookies.remember_token] and
    [err] tells whether [req.logout] reports an error. *)
Definition auth_logout
    (C : collation) (rememberToken : option string) (err : bool)
  : M (list action) :=
  cleared <-
    (match rememberToken with
     | Some (String c s) =>
         try_catch
           (deleteToken C (String c s) ;;
            ret [res_clearCookie "remember_token"])
           (fun error => ret [])
     | _ => ret []
     end) ;;
  ret (cleared
       ++ req_logout
       :: (if err then
             [res_status 500;
              res_json (JObject [("error", JString "Logout failed")])]
           else
             [res_json (JObject [("success", JBool true);
                                 ("message", JString "Logged out successfully")])]))%list.

(** [POST /auth/remember-check]; [token] is [req.body.token] and [err] tells
    whether [req.login] reports an error. *)
Definition remember_check
    (C : collation) (token : option string) (err : bool) (now NOW : Z)
  : M (list action) :=
  try_catch
    (match token with
     | Some (String c s) =>
         user <- validateToken C (String c s) now NOW ;;
         match user with
         | Some u =>
             ret (req_login u
                  :: (if err then
                        [res_status 500;
                         res_json (JObject [("authenticated", JBool false);
                                            ("message", JString "Error creating session")])]
                      else
                        [res_json (JObject [("authenticated", JBool true);
                                            ("user", JSON_of_user u)])]))
         | None =>
             ret [res_status 401;
                  res_json (JObject [("authenticated", JBool false);
                                     ("message", JString "Invalid or expired token")])]
         end
     | _ =>
         ret [res_status 400;
              res_json (JObject [("authenticated", JBool false);
                                 ("message", JString "Token is required")])]
     end)
    (fun error =>
       ret [res_status 500;
            res_json (JObject [("authenticated", JBool false);
                               ("message", JString "Error validating token")])]).

(** [POST /auth/remember-delete]; [token] is [req.body.token]. *)
Definition remember_delete (C : collation) (token : option string)
  : M (list action) :=
  try_catch
    ((match token with
      | Some (String c s) => deleteToken C (String c s) ;; ret tt
      | _ => ret tt
      end) ;;
     ret [res_json (JObject [("success", JBool true);
                             ("message", JString "Token deleted")])])
    (fun error =>
       ret [res_status 500;
            res_json (JObject [("success", JBool false);
                               ("message", JString "Error deleting token")])]).

(** ** Running a call

    A call of the module gets a connection of its own from the pool; it
    starts outside a transaction, and meets the faults [faults]. *)
Definition exec {A} (call : M A) (faults : list bool) (t : store)
  : outcome A * store :=
  let (o, w) := call (mkWorld t None faults) in (o, table w).

(** ** Vocabulary of the statements *)

(** A call meets no fault of the storage layer. *)
Definition quiet (faults : list bool) : bool := forallb negb faults.

(** The object [validateToken] builds from the row it found. *)
Definition snapshot (r : row.t) : user.t :=
  user.mk (row.userId r) (row.provider r) (row.userName r)
          (Some (row.userEmail r)) (row.userPhoto r).

(** What the UPDATE of [validateToken] does to a row. *)
Definition touch (C : collation) (tok : string) (NOW : Z) (r : row.t) : row.t :=
  if token_is C tok r then row.with_lastUsed NOW r else r.

(** The rows a DELETE by token leaves. *)
Definition without_token (C : collation) (tok : string) (rows : list row.t)
  : list row.t :=
  filter (fun r => negb (token_is C tok r)) rows.

(** The rows a DELETE by user leaves. *)
Definition without_user (C : collation) (u : user.t) (rows : list row.t)
  : list row.t :=
  filter (fun r => negb (user_is C (user.id u) (user.provider u) r)) rows.

(** The rows the sweep leaves. *)
Definition live_at (NOW : Z) (rows : list row.t) : list row.t :=
  filter (fun r => negb (expired_at NOW r)) rows.

(** Two rows that differ in [lastUsed] at most. *)
Definition same_but_lastUsed (r r' : row.t) : Prop :=
  row.token r' = row.token r /\
  row.userId r' = row.userId r /\
  row.provider r' = row.provider r /\
  row.userEmail r' = row.userEmail r /\
  row.userName r' = row.userName r /\
  row.userPhoto r' = row.userPhoto r /\
  row.expiresAt r' = row.expiresAt r /\
  row.createdAt r' = row.createdAt r.

(** [rememberDays = 30] *)
Definition days_or_default (rememberDays : option Z) : Z :=
  match rememberDays with Some d => d | None => 30 end.

(** The [expiresAt] that [createToken] computes on the host. *)
Definition expiry (z : Date.zone) (now : Z) (rememberDays : option Z) : option Z :=
  Date.setDate z now (Date.getDate z now + days_or_default rememberDays).

(** The row that [createToken] inserts. *)
Definition issued (u : user.t) (tok mail : string) (expires NOW : Z) : row.t :=
  row.mk tok (user.id u) (user.provider u) mail (user.name u)
         (or_null (user.photo u)) expires NOW NOW.

(** The fields of a user as [createToken] writes them to its row. *)
Definition denormalized (u : user.t) : user.t :=
  user.mk (user.id u) (user.provider u) (user.name u) (user.email u)
          (or_null (user.photo u)).

(** The rows of a table, none when it is not created. *)
Definition rows_of (t : store) : list row.t :=
  match t with Some rows => rows | None => [] end.

(** No two elements of a list are the same, for [same]. *)
Fixpoint distinct_by {A} (same : A -> A -> bool) (l : list A) : bool :=
  match l with
  | [] => true
  | a :: rest => negb (existsb (fun b => same b a) rest) && distinct_by same rest
  end.

(** Two rows with the same token, as the UNIQUE index compares them. *)
Definition same_token (C : collation) (r r' : row.t) : bool :=
  token_is C (row.token r') r.

(** Two rows of the same identity [(userId, provider)], as the DELETE of
    [createToken] compares them. *)
Definition same_user (C : collation) (r r' : row.t) : bool :=
  user_is C (row.userId r') (row.provider r') r.

(** A table with at most one row per token and at most one per identity. *)
Definition well_keyed (C : collation) (t : store) : bool :=
  distinct_by (same_token C) (rows_of t) && distinct_by (same_user C) (rows_of t).

(** A call of the module, with what it reads from outside. *)
Inductive call : Type :=
| CreateToken (u : user.t) (rememberDays : option Z)
              (randomBytes : nat -> list byte) (now NOW : Z)
| ValidateToken (token : string) (now NOW : Z)
| DeleteToken (token : string)
| InitializeTable (NOW : Z).

(** The table after a call that meets the faults [fs]. *)
Definition after (z : Date.zone) (C : collation)
    (c : call) (fs : list bool) (t : store) : store :=
  match c with
  | CreateToken u rememberDays randomBytes now NOW =>
      snd (exec (createToken z C u rememberDays randomBytes now NOW) fs t)
  | ValidateToken token now NOW =>
      snd (exec (validateToken C token now NOW) fs t)
  | DeleteToken token =>
      snd (exec (deleteToken C token) fs t)
  | InitializeTable NOW =>
      snd (exec (initializeTable NOW) fs t)
  end.

(** The tables the module can produce, from a store without the table. *)
Inductive reachable (z : Date.zone) (C : collation) : store -> Prop :=
| reachable_start : reachable z C None
| reachable_after c fs t :
    reachable z C t -> reachable z C (after z C c fs t).

(** The characters of [toString('hex')]. *)
Definition hex_lower (c : ascii) : bool :=
  existsb (Ascii.eqb c) (list_ascii_of_string "0123456789abcdef").

(** [req.headers.accept && req.headers.accept.includes('text/html')] *)
Definition wants_html (accept : option string) : bool :=
  truthy accept
  && match accept with Some a => includes "text/html" a | None => false end.

(** The cookie that the callbacks set. *)
Definition remember_cookie (NODE_ENV : option string) (token : string) : action :=
  res_cookie "remember_token" token 2592000000 true
             (match NODE_ENV with
              | Some env => String.eqb env "production"
              | None => false
              end)
             "lax".

(** The answers of [POST /auth/remember-check]. *)
Definition answer_authenticated (u : user.t) : list action :=
  [req_login u;
   res_json (JObject [("authenticated", JBool true); ("user", JSON_of_user u)])].

Definition answer_not_authenticated (code : Z) (message : string) : list action :=
  [res_status code;
   res_json (JObject [("authenticated", JBool false); ("message", JString message)])].

(** What [GET /auth/logout] does once the cookie is dealt with. *)
Definition logout_answer (err : bool) : list action :=
  req_logout
  :: (if err then
        [res_status 500;
         res_json (JObject [("error", JString "Logout failed")])]
      else
        [res_json (JObject [("success", JBool true);
                            ("message", JString "Logged out successfully")])]).

(** ** Sample data *)

(** A host on UTC. *)
Definition utc : Date.zone.
Proof.
  refine {| Date.LocalTZA := fun _ _ => 0 |}.
  intros t isUTC. discriminate.
Defined.

(** A host that moves its clocks forward by one hour, from UTC+1 to UTC+2,
    at 2027-03-28T01:00:00Z (02:00 local time). *)
Definition spring_forward : Date.zone.
Proof.
  refine {| Date.LocalTZA := fun t isUTC =>
              if isUTC then (if t <? 1806195600000 then 3600000 else 7200000)
              else (if t <? 1806199200000 then 3600000 else 7200000) |}.
  intros t [|]; match goal with |- context [if ?c then _ else _] => destruct c end;
    discriminate.
Defined.

Definition alice : user.t :=
  user.mk "1001" google "Alice" (Some "alice@example.org")
          (Some "https://example.org/alice.png").

Definition bob : user.t :=
  user.mk "2002" facebook "Bob" (Some "bob@example.org") None.

(** Three rows: the first two expire at 1000 and 2000, the third at 9000. *)
Definition row_a : row.t :=
  row.mk "aa" "1001" google "alice@example.org" "Alice" None 1000 10 10.
Definition row_b : row.t :=
  row.mk "bb" "2002" facebook "bob@example.org" "Bob" None 2000 20 20.
Definition row_c : row.t :=
  row.mk "cc" "3003" microsoft "carol@example.org" "Carol" None 9000 30 30.

(** [crypto.randomBytes] returning the byte [b] throughout. *)
Definition all_bytes (b : byte) : nat -> list byte := fun n => repeat b n.

(** * Proofs *)

Ltac run :=
  cbv beta iota delta
    [exec bind ret throw try_catch try_finally storage_call set_table
     on_table getConnection beginTransaction commit rollback rolled_back
     release DELETE_WHERE_userId_AND_provider INSERT SELECT_WHERE_token
     DELETE_WHERE_token UPDATE_lastUsed CREATE_TABLE_IF_NOT_EXISTS
     DELETE_WHERE_expired SELECT_1 createToken validateToken deleteToken
     initializeTable testConnection startup table undo pending].

(** ** Lists *)

Lemma filter_nil_find {A} (p : A -> bool) (l : list A) :
  filter p l = [] <-> find p l = None.
Proof.
  induction l as [|a l IH]; simpl; [tauto|].
  destruct (p a); [split; discriminate | exact IH].
Qed.

Lemma filter_cons_find {A} (p : A -> bool) (l : list A) (a : A) :
  (exists rest, filter p l = a :: rest) <-> find p l = Some a.
Proof.
  induction l as [|b l IH]; simpl.
  - split; [intros [rest H] | intros H]; discriminate.
  - destruct (p b); [| exact IH].
    split; [intros [rest H] | intros H].
    + injection H as -> _. reflexivity.
    + injection H as ->. eexists. reflexivity.
Qed.

Lemma existsb_filter_negb {A} (p : A -> bool) (l : list A) :
  existsb p (filter (fun a => negb (p a)) l) = false.
Proof.
  induction l as [|a l IH]; simpl; [reflexivity|].
  destruct (p a) eqn:E; simpl; [exact IH | rewrite E; exact IH].
Qed.

Lemma filter_filter_negb {A} (p : A -> bool) (l : list A) :
  filter p (filter (fun a => negb (p a)) l) = [].
Proof.
  induction l as [|a l IH]; simpl; [reflexivity|].
  destruct (p a) eqn:E; simpl; [exact IH | rewrite E; exact IH].
Qed.

Lemma existsb_false_filter {A} (p : A -> bool) (l : list A) :
  existsb p l = false -> filter p l = [] /\ filter (fun a => negb (p a)) l = l.
Proof.
  induction l as [|a l IH]; simpl; [split; reflexivity|].
  destruct (p a); simpl; [discriminate|].
  intros H. destruct (IH H) as [H1 H2]. split; [exact H1 | now rewrite H2].
Qed.

Lemma existsb_true_filter {A} (p : A -> bool) (l : list A) :
  existsb p l = true -> 0 < Z.of_nat (List.length (filter p l)).
Proof.
  induction l as [|a l IH]; simpl; [discriminate|].
  destruct (p a); simpl; [lia | exact IH].
Qed.

(** ** A quiet call runs like a call without faults *)

Lemma quiet_validateToken C tok now NOW fs t :
  quiet fs = true ->
  exec (validateToken C tok now NOW) fs t
  = exec (validateToken C tok now NOW) [] t.
Proof.
  intros Q. unfold quiet in Q.
  destruct fs as [|[] fs]; try discriminate; try reflexivity.
  destruct fs as [|[] fs]; try discriminate; run;
    destruct t as [rows|]; try reflexivity.
  all: destruct (filter (token_is C tok) rows) as [|r rest]; try reflexivity.
  all: destruct (row.expiresAt r <? now); try reflexivity.
  all: destruct fs as [|[] fs]; try discriminate; reflexivity.
Qed.

Lemma quiet_deleteToken C tok fs t :
  quiet fs = true ->
  exec (deleteToken C tok) fs t = exec (deleteToken C tok) [] t.
Proof.
  intros Q. unfold quiet in Q.
  destruct fs as [|[] fs]; try discriminate; try reflexivity.
  destruct fs as [|[] fs]; try discriminate; run; destruct t; reflexivity.
Qed.

Lemma quiet_initializeTable NOW fs t :
  quiet fs = true ->
  exec (initializeTable NOW) fs t = exec (initializeTable NOW) [] t.
Proof.
  intros Q. unfold quiet in Q.
  destruct fs as [|[] fs]; try discriminate; try reflexivity.
  destruct fs as [|[] fs]; try discriminate; run; destruct t; try reflexivity.
  all: destruct fs as [|[] fs]; try discriminate; reflexivity.
Qed.

(** ** What a call without faults does *)

Lemma validateToken_run C tok now NOW rows :
  exec (validateToken C tok now NOW) [] (Some rows)
  = match find (token_is C tok) rows with
    | None => (Returned None, Some rows)
    | Some r =>
        if row.expiresAt r <? now
        then (Returned None, Some (without_token C tok rows))
        else (Returned (Some (snapshot r)), Some (map (touch C tok NOW) rows))
    end.
Proof.
  run. destruct (find (token_is C tok) rows) as [r|] eqn:F.
  - apply filter_cons_find in F. destruct F as [rest ->].
    destruct (row.expiresAt r <? now); reflexivity.
  - apply filter_nil_find in F. rewrite F. reflexivity.
Qed.

Lemma deleteToken_run C tok rows :
  exec (deleteToken C tok) [] (Some rows)
  = (Returned (existsb (token_is C tok) rows), Some (without_token C tok rows)).
Proof.
  run. unfold without_token. f_equal. f_equal.
  destruct (existsb (token_is C tok) rows) eqn:E.
  - apply existsb_true_filter in E. apply Z.ltb_lt. exact E.
  - apply existsb_false_filter in E. destruct E as [-> _]. reflexivity.
Qed.

Lemma find_without_token C tok rows :
  find (token_is C tok) (without_token C tok rows) = None.
Proof.
  apply filter_nil_find. apply filter_filter_negb.
Qed.

Lemma same_but_lastUsed_refl r : same_but_lastUsed r r.
Proof. repeat split. Qed.

Lemma same_but_lastUsed_touch C tok NOW r :
  same_but_lastUsed r (touch C tok NOW r).
Proof.
  unfold touch. destruct (token_is C tok r); repeat split.
Qed.

Ltac stays :=
  let H := fresh in
  intros H; injection H as <- <-; left; split; [reflexivity | discriminate].

Ltac fault fs := destruct fs as [|[] fs]; run; try stays.

(** Every way a call of [validateToken] can end, whatever the faults. *)
Lemma validateToken_cases C tok now NOW fs t o t' :
  exec (validateToken C tok now NOW) fs t = (o, t') ->
  (t' = t /\ forall u, o <> Returned (Some u))
  \/ (exists rows, t = Some rows /\ t' = Some (without_token C tok rows)
      /\ o = Returned None)
  \/ (exists rows r, t = Some rows /\ t' = Some (map (touch C tok NOW) rows)
      /\ find (token_is C tok) rows = Some r
      /\ o = Returned (Some (snapshot r))).
Proof.
  fault fs.
  all: try (fault fs).
  all: destruct t as [rows|]; try stays.
  all: destruct (find (token_is C tok) rows) as [r|] eqn:F;
    [ pose proof F as F'; apply filter_cons_find in F'; destruct F' as [rest ->]
    | pose proof F as F'; apply filter_nil_find in F'; rewrite F'; stays ].
  all: destruct (row.expiresAt r <? now).
  all: try (fault fs).
  all: intros H; injection H as <- <-; right.
  all: try (left; exists rows; repeat split; reflexivity).
  all: right; exists rows, r; repeat split; try reflexivity; exact F.
Qed.

(** ** Validation *)

(** C3. A stored token whose [expiresAt] is before the host clock of the
    call: [validateToken] returns [null], and the DELETE it ran leaves no
    row with that token in the table; in particular the expired row is
    gone. *)
Theorem validateToken_expired_is_removed C tok now NOW fs rows r :
  quiet fs = true ->
  find (token_is C tok) rows = Some r ->
  row.expiresAt r < now ->
  exec (validateToken C tok now NOW) fs (Some rows)
  = (Returned None, Some (without_token C tok rows))
  /\ existsb (token_is C tok) (without_token C tok rows) = false
  /\ ~ In r (without_token C tok rows).
Proof.
  intros Q F E. rewrite (quiet_validateToken _ _ _ _ _ _ Q), validateToken_run, F.
  apply Z.ltb_lt in E. rewrite E. split; [reflexivity|]. split.
  - apply existsb_filter_negb.
  - intros I. apply filter_In in I. destruct I as [_ I].
    apply find_some in F. destruct F as [_ F]. rewrite F in I. discriminate.
Qed.

Lemma validateToken_expired_is_removed_witness :
  exec (validateToken binary "aa" 1500 1500) [false; false; false]
       (Some [row_a; row_b; row_c])
  = (Returned None, Some (without_token binary "aa" [row_a; row_b; row_c]))
  /\ existsb (token_is binary "aa")
             (without_token binary "aa" [row_a; row_b; row_c]) = false
  /\ ~ In row_a (without_token binary "aa" [row_a; row_b; row_c]).
Proof.
  apply (validateToken_expired_is_removed binary "aa" 1500 1500
           [false; false; false] [row_a; row_b; row_c] row_a).
  - reflexivity.
  - reflexivity.
  - reflexivity.
Defined.

(** C10. The expiry check is strict. A stored token whose [expiresAt] is
    exactly the host clock of the call is live: no row is deleted, the
    [lastUsed] of its row becomes the database clock and the snapshot of
    the row is returned. Whatever the clock, the token is treated as dead
    (the call returns [null]) exactly when its [expiresAt] is strictly
    before the clock. *)
Theorem validateToken_boundary_is_live C tok now NOW fs rows r :
  quiet fs = true ->
  find (token_is C tok) rows = Some r ->
  row.expiresAt r = now ->
  exec (validateToken C tok now NOW) fs (Some rows)
  = (Returned (Some (snapshot r)), Some (map (touch C tok NOW) rows))
  /\ List.length (map (touch C tok NOW) rows) = List.length rows
  /\ In (row.with_lastUsed NOW r) (map (touch C tok NOW) rows)
  /\ forall now',
       fst (exec (validateToken C tok now' NOW) fs (Some rows)) = Returned None
       <-> row.expiresAt r < now'.
Proof.
  intros Q F E.
  rewrite (quiet_validateToken _ _ _ _ _ _ Q), validateToken_run, F.
  rewrite E, Z.ltb_irrefl. split; [reflexivity|].
  split; [apply length_map|]. split.
  - apply find_some in F. destruct F as [I T].
    apply in_map_iff. exists r. split; [| exact I].
    unfold touch. rewrite T. reflexivity.
  - intros now'.
    rewrite (quiet_validateToken _ _ _ _ _ _ Q), validateToken_run, F, E.
    destruct (Z.ltb_spec now now') as [L|L]; simpl.
    + split; [intros _; exact L | reflexivity].
    + split; [discriminate | lia].
Qed.

Lemma validateToken_boundary_is_live_witness :
  exec (validateToken binary "bb" 2000 2001) [] (Some [row_a; row_b])
  = (Returned (Some (snapshot row_b)),
     Some (map (touch binary "bb" 2001) [row_a; row_b]))
  /\ List.length (map (touch binary "bb" 2001) [row_a; row_b])
     = List.length [row_a; row_b]
  /\ In (row.with_lastUsed 2001 row_b)
        (map (touch binary "bb" 2001) [row_a; row_b])
  /\ forall now',
       fst (exec (validateToken binary "bb" now' 2001) [] (Some [row_a; row_b]))
       = Returned None
       <-> row.expiresAt row_b < now'.
Proof.
  apply (validateToken_boundary_is_live binary "bb" 2000 2001 []
           [row_a; row_b] row_b).
  - reflexivity.
  - reflexivity.
  - reflexivity.
Defined.

(** C5. A call of [validateToken] that returns a snapshot has set the
    [lastUsed] of the row with that token to the database clock and has
    changed nothing else: the table holds the same rows in the same order,
    each with its old columns, [lastUsed] apart, which is the clock for the
    rows with that token and the old value for the others. And however a
    call ends (snapshot, [null] or a throw), every row of the table after it
    is a row of the table before it with the same [expiresAt] and the same
    other columns, [lastUsed] apart. *)
Theorem validateToken_touches_lastUsed_only C tok now NOW fs t o t' :
  exec (validateToken C tok now NOW) fs t = (o, t') ->
  (forall u, o = Returned (Some u) ->
     exists rows rows' r,
       t = Some rows /\ t' = Some rows'
       /\ find (token_is C tok) rows = Some r /\ u = snapshot r
       /\ In (row.with_lastUsed NOW r) rows'
       /\ Forall2 (fun r0 r0' =>
                     same_but_lastUsed r0 r0'
                     /\ row.lastUsed r0'
                        = if token_is C tok r0 then NOW else row.lastUsed r0)
                  rows rows')
  /\ (forall rows', t' = Some rows' ->
       exists rows,
         t = Some rows
         /\ forall r', In r' rows' -> exists r, In r rows /\ same_but_lastUsed r r').
Proof.
  intros H. apply validateToken_cases in H.
  destruct H as [[-> N] | [(rows & -> & -> & ->) | (rows & r & -> & -> & F & ->)]].
  - split.
    + intros u E. destruct (N u E).
    + intros rows' ->. exists rows'. split; [reflexivity|].
      intros r' I. exists r'. split; [exact I | apply same_but_lastUsed_refl].
  - split.
    + intros u E. discriminate.
    + intros rows' E. injection E as <-. exists rows. split; [reflexivity|].
      intros r' I. apply filter_In in I. destruct I as [I _].
      exists r'. split; [exact I | apply same_but_lastUsed_refl].
  - split.
    + intros u E. injection E as <-.
      exists rows, (map (touch C tok NOW) rows), r.
      repeat split; try reflexivity; try exact F.
      * apply find_some in F. destruct F as [I T].
        apply in_map_iff. exists r. split; [| exact I].
        unfold touch. rewrite T. reflexivity.
      * clear F. induction rows as [|r0 rows IH]; simpl; constructor.
        -- split; [apply same_but_lastUsed_touch|].
           unfold touch. destruct (token_is C tok r0); reflexivity.
        -- exact IH.
    + intros rows' E. injection E as <-. exists rows. split; [reflexivity|].
      intros r' I. apply in_map_iff in I. destruct I as (r0 & <- & I).
      exists r0. split; [exact I | apply same_but_lastUsed_touch].
Qed.

Lemma validateToken_touches_lastUsed_only_witness :
  (forall u, Returned (Some (snapshot row_c)) = Returned (Some u) ->
     exists rows rows' r,
       Some [row_a; row_c] = Some rows
       /\ Some [row_a; row.with_lastUsed 5000 row_c] = Some rows'
       /\ find (token_is binary "cc") rows = Some r /\ u = snapshot r
       /\ In (row.with_lastUsed 5000 r) rows'
       /\ Forall2 (fun r0 r0' =>
                     same_but_lastUsed r0 r0'
                     /\ row.lastUsed r0'
                        = if token_is binary "cc" r0 then 5000
                          else row.lastUsed r0)
                  rows rows')
  /\ (forall rows', Some [row_a; row.with_lastUsed 5000 row_c] = Some rows' ->
       exists rows,
         Some [row_a; row_c] = Some rows
         /\ forall r', In r' rows' -> exists r, In r rows /\ same_but_lastUsed r r').
Proof.
  apply (validateToken_touches_lastUsed_only binary "cc" 4000 5000 []
           (Some [row_a; row_c])).
  reflexivity.
Defined.

(** C6, as the module has it. The UPDATE of [lastUsed] is awaited inside
    the [try] whose [catch] throws the error again: when the token is found
    and not expired and the UPDATE is the call that fails, [validateToken]
    throws that failure and the table is left as it was; the snapshot is
    returned when the UPDATE succeeds. *)
Theorem validateToken_touch_failure_is_thrown C tok now NOW fs rows r :
  find (token_is C tok) rows = Some r ->
  now <= row.expiresAt r ->
  exec (validateToken C tok now NOW) (false :: false :: true :: fs) (Some rows)
  = (Thrown ER_SOCKET_UNEXPECTED_CLOSE, Some rows)
  /\ exec (validateToken C tok now NOW) (false :: false :: false :: fs) (Some rows)
     = (Returned (Some (snapshot r)), Some (map (touch C tok NOW) rows)).
Proof.
  intros F L. apply filter_cons_find in F. destruct F as [rest F].
  apply Z.ltb_ge in L. run. rewrite F, L. split; reflexivity.
Qed.

Lemma validateToken_touch_failure_is_thrown_witness :
  exec (validateToken binary "cc" 4000 5000) [false; false; true]
       (Some [row_a; row_c])
  = (Thrown ER_SOCKET_UNEXPECTED_CLOSE, Some [row_a; row_c])
  /\ exec (validateToken binary "cc" 4000 5000) [false; false; false]
          (Some [row_a; row_c])
     = (Returned (Some (snapshot row_c)),
        Some (map (touch binary "cc" 5000) [row_a; row_c])).
Proof.
  apply (validateToken_touch_failure_is_thrown binary "cc" 4000 5000 []
           [row_a; row_c] row_c).
  - reflexivity.
  - simpl. lia.
Defined.

(** C6, as the specification has it, fails: the token ["cc"] is found and
    is not expired at 4000, the connection and the SELECT succeed, the
    UPDATE fails, and the call throws instead of returning the snapshot. *)
Lemma validateToken_touch_is_not_best_effort :
  find (token_is binary "cc") [row_a; row_c] = Some row_c
  /\ 4000 <= row.expiresAt row_c
  /\ fst (exec (validateToken binary "cc" 4000 5000) [false; false; true]
               (Some [row_a; row_c]))
     = Thrown ER_SOCKET_UNEXPECTED_CLOSE
  /\ fst (exec (validateToken binary "cc" 4000 5000) [false; false; true]
               (Some [row_a; row_c]))
     <> Returned (Some (snapshot row_c)).
Proof.
  repeat split; try reflexivity; discriminate.
Qed.

(** ** Deletion *)

(** C4. [deleteToken] returns whether a row with that token was in the
    table ([false] when there was none, and then the table is unchanged;
    [true] when there was one): it does not throw for a token that is not
    found. The table it leaves holds no row with that token, and a
    [validateToken] of the token on it returns [null]. *)
Theorem deleteToken_reports_removal C tok fs rows :
  quiet fs = true ->
  exec (deleteToken C tok) fs (Some rows)
  = (Returned (existsb (token_is C tok) rows), Some (without_token C tok rows))
  /\ (existsb (token_is C tok) rows = false -> without_token C tok rows = rows)
  /\ existsb (token_is C tok) (without_token C tok rows) = false
  /\ forall now NOW fs',
       quiet fs' = true ->
       exec (validateToken C tok now NOW) fs' (Some (without_token C tok rows))
       = (Returned None, Some (without_token C tok rows)).
Proof.
  intros Q. rewrite (quiet_deleteToken _ _ _ _ Q), deleteToken_run.
  split; [reflexivity|]. split; [| split].
  - intros E. apply existsb_false_filter in E. apply E.
  - apply existsb_filter_negb.
  - intros now NOW fs' Q'.
    rewrite (quiet_validateToken _ _ _ _ _ _ Q'), validateToken_run.
    rewrite find_without_token. reflexivity.
Qed.

Lemma deleteToken_reports_removal_witness :
  exec (deleteToken binary "bb") [false; false] (Some [row_a; row_b; row_c])
  = (Returned (existsb (token_is binary "bb") [row_a; row_b; row_c]),
     Some (without_token binary "bb" [row_a; row_b; row_c]))
  /\ (existsb (token_is binary "bb") [row_a; row_b; row_c] = false ->
      without_token binary "bb" [row_a; row_b; row_c] = [row_a; row_b; row_c])
  /\ existsb (token_is binary "bb")
             (without_token binary "bb" [row_a; row_b; row_c]) = false
  /\ forall now NOW fs',
       quiet fs' = true ->
       exec (validateToken binary "bb" now NOW) fs'
            (Some (without_token binary "bb" [row_a; row_b; row_c]))
       = (Returned None, Some (without_token binary "bb" [row_a; row_b; row_c])).
Proof.
  apply (deleteToken_reports_removal binary "bb" [false; false]
           [row_a; row_b; row_c]).
  reflexivity.
Defined.

(** ** The calendar of the host *)

Lemma MakeDay_of_its_own_date t n :
  Date.MakeDay (Date.YearFromTime t) (Date.MonthFromTime t)
               (Date.DateFromTime t + n)
  = Date.Day t + n.
Proof.
  unfold Date.MakeDay, Date.DateFromTime, Date.MonthFromTime,
    Date.DayWithinYear, Date.InLeapYear.
  generalize (Date.YearFromTime t) (Date.Day t). intros y d.
  repeat match goal with
         | |- context [if ?a <? ?b then _ else _] => destruct (a <? b)
         end.
  all: match goal with
       | |- context [?k / 12] =>
           change (k / 12) with 0; change (k mod 12) with k
       end.
  all: rewrite (Z.add_0_r y); unfold Date.MonthStart;
    destruct (Date.DaysInYear y =? 366); lia.
Qed.

(** [d.setDate(d.getDate() + n)] moves the local time of [d] by [n] days
    of 24 hours and keeps its time within the day. *)
Lemma setDate_getDate_plus z t n :
  Date.setDate z t (Date.getDate z t + n)
  = Date.TimeClip (Date.UTC z (Date.LocalTime z t + n * Date.msPerDay)).
Proof.
  unfold Date.setDate, Date.getDate.
  rewrite MakeDay_of_its_own_date.
  f_equal. f_equal.
  unfold Date.MakeDate, Date.Day, Date.TimeWithinDay.
  generalize (Date.LocalTime z t). intros lt.
  pose proof (Z.div_mod lt Date.msPerDay) as D.
  unfold Date.msPerDay in *. lia.
Qed.

Lemma DayFromYear_succ y :
  Date.DayFromYear (y + 1) = Date.DayFromYear y + Date.DaysInYear y.
Proof.
  unfold Date.DayFromYear, Date.DaysInYear.
  destruct (Z.eqb_spec (y mod 4) 0), (Z.eqb_spec (y mod 100) 0),
    (Z.eqb_spec (y mod 400) 0); simpl negb; cbv iota;
    Z.div_mod_to_equations; lia.
Qed.

Lemma DaysInYear_bounds y : 365 <= Date.DaysInYear y <= 366.
Proof.
  unfold Date.DaysInYear.
  destruct (negb _); [lia|]. destruct (negb _); [lia|]. destruct (negb _); lia.
Qed.

Lemma DayFromYear_bounds k :
  (0 <= k -> 365 * k <= Date.DayFromYear (1970 + k) <= 366 * k)
  /\ (k <= 0 -> 366 * k <= Date.DayFromYear (1970 + k) <= 365 * k).
Proof.
  unfold Date.DayFromYear. split; intros H; Z.div_mod_to_equations; lia.
Qed.

Lemma year_search_spec fuel : forall y d,
  Date.DayFromYear y <= d ->
  d < Date.DayFromYear (y + Z.of_nat fuel) ->
  Date.DayFromYear (Date.year_search fuel y d) <= d
  < Date.DayFromYear (Date.year_search fuel y d + 1).
Proof.
  induction fuel as [|fuel IH]; intros y d L U.
  - simpl in U. rewrite Z.add_0_r in U. lia.
  - cbn [Date.year_search].
    destruct (Z.leb_spec (Date.DayFromYear (y + 1)) d) as [B|B].
    + apply IH; [exact B|].
      replace (y + 1 + Z.of_nat fuel) with (y + Z.of_nat (S fuel)) by lia.
      exact U.
    + lia.
Qed.

(** [YearFromTime t] is the year of [t]: the largest [y] whose first day is
    not after the day of [t]. The search never runs out of fuel. *)
Lemma YearFromTime_spec t :
  Date.DayFromYear (Date.YearFromTime t) <= Date.Day t
  < Date.DayFromYear (Date.YearFromTime t + 1).
Proof.
  unfold Date.YearFromTime, Date.YearFromDay.
  generalize (Date.Day t). intros d.
  apply year_search_spec.
  - destruct (Z.leb_spec 0 d) as [P|N].
    + pose proof (proj1 (DayFromYear_bounds (d / 366))) as B.
      Z.div_mod_to_equations. lia.
    + pose proof (proj2 (DayFromYear_bounds (d / 365))) as B.
      Z.div_mod_to_equations. lia.
  - rewrite Z2Nat.id by (Z.div_mod_to_equations; lia).
    destruct (Z.leb_spec 0 d) as [P|N].
    + replace (1970 + d / 366 + (Z.abs d / 100000 + 3))
        with (1970 + (d / 366 + Z.abs d / 100000 + 3)) by lia.
      pose proof (proj1 (DayFromYear_bounds (d / 366 + Z.abs d / 100000 + 3))) as B.
      Z.div_mod_to_equations. lia.
    + replace (1970 + d / 365 + (Z.abs d / 100000 + 3))
        with (1970 + (d / 365 + Z.abs d / 100000 + 3)) by lia.
      destruct (DayFromYear_bounds (d / 365 + Z.abs d / 100000 + 3)) as [B1 B2].
      Z.div_mod_to_equations. lia.
Qed.

Lemma DayWithinYear_bounds t :
  0 <= Date.DayWithinYear t < 365 + Date.InLeapYear t.
Proof.
  unfold Date.DayWithinYear, Date.InLeapYear.
  pose proof (YearFromTime_spec t) as S.
  rewrite DayFromYear_succ in S.
  pose proof (DaysInYear_bounds (Date.YearFromTime t)) as B.
  destruct (Z.eqb_spec (Date.DaysInYear (Date.YearFromTime t)) 366); lia.
Qed.

(** [getDate] is a day of the month. *)
Lemma DateFromTime_bounds t : 1 <= Date.DateFromTime t <= 31.
Proof.
  pose proof (DayWithinYear_bounds t) as B.
  unfold Date.DateFromTime, Date.MonthFromTime.
  assert (Date.InLeapYear t = 0 \/ Date.InLeapYear t = 1) as L.
  { unfold Date.InLeapYear. destruct (_ =? _); auto. }
  revert B L.
  generalize (Date.DayWithinYear t) (Date.InLeapYear t). intros d l B L.
  repeat match goal with
         | |- context [if ?a <? ?b then _ else _] =>
             destruct (Z.ltb_spec a b)
         end; lia.
Qed.

(** ** Tokens *)

Lemma hex_digit_inj a b :
  (a < 16)%N -> (b < 16)%N -> hex_digit a = hex_digit b -> a = b.
Proof.
  intros A B.
  assert (a = 0 \/ a = 1 \/ a = 2 \/ a = 3 \/ a = 4 \/ a = 5 \/ a = 6 \/ a = 7
          \/ a = 8 \/ a = 9 \/ a = 10 \/ a = 11 \/ a = 12 \/ a = 13 \/ a = 14
          \/ a = 15)%N as Ha by lia.
  assert (b = 0 \/ b = 1 \/ b = 2 \/ b = 3 \/ b = 4 \/ b = 5 \/ b = 6 \/ b = 7
          \/ b = 8 \/ b = 9 \/ b = 10 \/ b = 11 \/ b = 12 \/ b = 13 \/ b = 14
          \/ b = 15)%N as Hb by lia.
  clear A B.
  repeat (destruct Ha as [Ha|Ha]); subst a;
    repeat (destruct Hb as [Hb|Hb]); subst b;
    intros H; try reflexivity; discriminate H.
Qed.

(** The hexadecimal form of the random bytes loses nothing: two draws give
    the same token only when they gave the same bytes. *)
Lemma toString_hex_inj l : forall l', toString_hex l = toString_hex l' -> l = l'.
Proof.
  induction l as [|b l IH]; intros [|b' l'] H; simpl in H;
    try reflexivity; try discriminate H.
  injection H as Hhi Hlo Hrest.
  pose proof (Byte.to_N_bounded b) as Bb.
  pose proof (Byte.to_N_bounded b') as Bb'.
  apply hex_digit_inj in Hhi;
    [| apply N.Div0.div_lt_upper_bound; lia | apply N.Div0.div_lt_upper_bound; lia].
  apply hex_digit_inj in Hlo; [| apply N.mod_lt; lia | apply N.mod_lt; lia].
  f_equal; [| apply IH; exact Hrest].
  assert (Byte.to_N b = Byte.to_N b') as E.
  { rewrite (N.div_mod (Byte.to_N b) 16), (N.div_mod (Byte.to_N b') 16) by lia.
    now rewrite Hhi, Hlo. }
  pose proof (Byte.of_to_N b) as O. rewrite E, Byte.of_to_N in O.
  now injection O.
Qed.

Lemma toString_hex_length l :
  String.length (toString_hex l) = (2 * List.length l)%nat.
Proof.
  induction l as [|b l IH]; simpl; [reflexivity | rewrite IH; lia].
Qed.

(** A token is 64 characters long, the width of the [token] column. *)
Lemma generateToken_length rb :
  List.length (rb 32%nat) = 32%nat -> String.length (generateToken rb) = 64%nat.
Proof.
  intros H. unfold generateToken. rewrite toString_hex_length, H. reflexivity.
Qed.

(** ** Issuance *)

Ltac next_call :=
  run;
  match goal with
  | |- context [match ?l with [] => _ | _ :: _ => _ end] =>
      is_var l; destruct l as [|[] l]
  | |- context [match ?t with Some _ => _ | None => _ end] =>
      is_var t; destruct t
  | |- context [if existsb ?p ?l then _ else _] =>
      destruct (existsb p l) eqn:?
  end.

(** Every way a call of [createToken] can end, whatever the faults: it
    throws and the table is as before, or none of its five calls to the
    storage layer failed and it returns the token. *)
Lemma createToken_cases z C u days rb now NOW fs t o t' :
  exec (createToken z C u days rb now NOW) fs t = (o, t') ->
  (exists e, o = Thrown e /\ t' = t)
  \/ (exists rows mail expires,
        t = Some rows
        /\ user.email u = Some mail
        /\ expiry z now days = Some expires
        /\ existsb (token_is C (generateToken rb)) (without_user C u rows) = false
        /\ quiet (firstn 5 fs) = true
        /\ o = Returned (generateToken rb)
        /\ t' = Some (without_user C u rows
                      ++ [issued u (generateToken rb) mail expires NOW])%list).
Proof.
  unfold expiry, days_or_default, without_user, issued, createToken.
  destruct u as [uid up un mail ph].
  cbn [user.id user.provider user.name user.email user.photo].
  generalize (generateToken rb). intros tok.
  match goal with
  | |- context [Date.setDate ?a ?b ?c] => generalize (Date.setDate a b c)
  end.
  intros ex.
  repeat next_call.
  all: let H := fresh in intros H; injection H as <- <-.
  all: try (left; eexists; split; reflexivity).
  all: right; eexists _, _, _; repeat split; try reflexivity; assumption.
Qed.

(** [createToken] leaves no transaction open, however it ends. *)
Lemma createToken_leaves_no_transaction z C u days rb now NOW fs t :
  undo (snd (createToken z C u days rb now NOW (mkWorld t None fs))) = None.
Proof.
  unfold createToken.
  destruct u as [uid up un mail ph].
  cbn [user.id user.provider user.name user.email user.photo].
  generalize (generateToken rb). intros tok.
  match goal with
  | |- context [Date.setDate ?a ?b ?c] => generalize (Date.setDate a b c)
  end.
  intros ex.
  repeat next_call.
  all: reflexivity.
Qed.

(** A quiet call of [createToken] for a user with an e-mail, at a date in
    range and with a token no other row has, returns the token and replaces
    the rows of the user by the issued one. *)
Lemma createToken_run z C u days rb now NOW fs rows mail expires :
  quiet fs = true ->
  user.email u = Some mail ->
  expiry z now days = Some expires ->
  existsb (token_is C (generateToken rb)) (without_user C u rows) = false ->
  exec (createToken z C u days rb now NOW) fs (Some rows)
  = (Returned (generateToken rb),
     Some (without_user C u rows
           ++ [issued u (generateToken rb) mail expires NOW])%list).
Proof.
  unfold expiry, days_or_default, without_user, issued, createToken.
  destruct u as [uid up un mail' ph].
  cbn [user.id user.provider user.name user.email user.photo].
  intros Q -> -> E. unfold quiet in Q.
  do 6 (run; try rewrite E; try reflexivity;
        try (destruct fs as [|[] fs]; try discriminate Q)).
Qed.

Lemma expiry_value z now days expires :
  expiry z now days = Some expires ->
  expires
  = Date.UTC z (Date.LocalTime z now + days_or_default days * Date.msPerDay).
Proof.
  unfold expiry. rewrite setDate_getDate_plus. unfold Date.TimeClip.
  destruct (_ <? _); [discriminate|]. intros H. injection H as <-. reflexivity.
Qed.

Lemma expiry_in_range z now days :
  Z.abs (Date.UTC z (Date.LocalTime z now + days_or_default days * Date.msPerDay))
  <= 8640000000000000 ->
  expiry z now days
  = Some (Date.UTC z (Date.LocalTime z now + days_or_default days * Date.msPerDay)).
Proof.
  intros R. unfold expiry. rewrite setDate_getDate_plus. unfold Date.TimeClip.
  destruct (Z.ltb_spec 8640000000000000
              (Z.abs (Date.UTC z (Date.LocalTime z now
                                  + days_or_default days * Date.msPerDay))));
    [lia | reflexivity].
Qed.

(** The expiry is within two days of [rememberDays] days of 24 hours after
    the clock. *)
Lemma expiry_bounds z now days expires :
  expiry z now days = Some expires ->
  now + (days_or_default days - 2) * Date.msPerDay <= expires
  <= now + (days_or_default days + 2) * Date.msPerDay.
Proof.
  intros H. apply expiry_value in H. subst expires.
  unfold Date.UTC, Date.LocalTime.
  pose proof (Date.LocalTZA_bound z now true) as B1.
  pose proof (Date.LocalTZA_bound z
                (now + Date.LocalTZA z now true
                 + days_or_default days * Date.msPerDay) false) as B2.
  lia.
Qed.

Lemma find_app_last {A} (p : A -> bool) (l : list A) (a : A) :
  existsb p l = false -> find p (l ++ [a]) = if p a then Some a else None.
Proof.
  induction l as [|b l IH]; simpl; [reflexivity|].
  destruct (p b); simpl; [discriminate | exact IH].
Qed.

Lemma token_is_issued C u tok mail expires NOW tok' :
  token_is C tok' (issued u tok mail expires NOW) = coll_eqb C tok tok'.
Proof. reflexivity. Qed.

Lemma Provider_eqb_refl p : Provider_eqb p p = true.
Proof. destruct p; reflexivity. Qed.

Lemma user_is_issued C u tok mail expires NOW :
  user_is C (user.id u) (user.provider u) (issued u tok mail expires NOW) = true.
Proof.
  unfold user_is, issued. simpl. rewrite coll_refl, Provider_eqb_refl. reflexivity.
Qed.

Lemma without_user_app C u l1 l2 :
  without_user C u (l1 ++ l2) = (without_user C u l1 ++ without_user C u l2)%list.
Proof. apply filter_app. Qed.

Lemma without_user_idem C u rows :
  without_user C u (without_user C u rows) = without_user C u rows.
Proof.
  unfold without_user. induction rows as [|r rows IH]; simpl; [reflexivity|].
  destruct (user_is C (user.id u) (user.provider u) r) eqn:E; simpl;
    [exact IH | rewrite E; simpl; now rewrite IH].
Qed.

Lemma or_null_nonempty photo : photo <> Some EmptyString -> or_null photo = photo.
Proof.
  destruct photo as [[|c s]|]; simpl; intros H; try reflexivity.
  now destruct H.
Qed.

Lemma coll_eqb_congr C a b c :
  coll_eqb C a b = true -> coll_eqb C c a = coll_eqb C c b.
Proof.
  intros E. destruct (coll_eqb C c a) eqn:A; destruct (coll_eqb C c b) eqn:B;
    try reflexivity.
  - rewrite (coll_trans C c a b A E) in B. discriminate.
  - rewrite coll_sym in E. rewrite (coll_trans C c b a B E) in A. discriminate.
Qed.

Lemma user_is_congr C a b p r :
  coll_eqb C a b = true -> user_is C a p r = user_is C b p r.
Proof.
  intros E. unfold user_is. now rewrite (coll_eqb_congr C a b _ E).
Qed.

Lemma denormalized_nonempty u :
  user.photo u <> Some EmptyString -> denormalized u = u.
Proof.
  intros P. unfold denormalized. rewrite (or_null_nonempty _ P).
  destruct u; reflexivity.
Qed.

(** C1. When [createToken(user)] has returned a token, a [validateToken] of
    that token that meets no fault, at a host clock at most 28 days later,
    returns the denormalized fields of the user, those the row was given:
    the [id], [provider], [name] and [email] of the user and its photo,
    [user.photo || null]. They are the fields of the user itself unless its
    photo is the empty string. *)
Theorem createToken_then_validateToken
    z C u rb now NOW fs t tok t' now' NOW' fs' :
  exec (createToken z C u None rb now NOW) fs t = (Returned tok, t') ->
  quiet fs' = true ->
  now' <= now + 28 * Date.msPerDay ->
  fst (exec (validateToken C tok now' NOW') fs' t')
  = Returned (Some (denormalized u))
  /\ (user.photo u <> Some EmptyString -> denormalized u = u).
Proof.
  intros H Q L. split; [| apply denormalized_nonempty].
  apply createToken_cases in H.
  destruct H as [(e & H & _) | (rows & mail & expires & -> & M & X & U & _ & T & ->)];
    [discriminate|].
  injection T as ->.
  rewrite (quiet_validateToken _ _ _ _ _ _ Q), validateToken_run.
  rewrite (find_app_last _ _ _ U), token_is_issued, coll_refl.
  apply expiry_bounds in X. unfold days_or_default, Date.msPerDay in X, L.
  cbn [row.expiresAt issued].
  destruct (Z.ltb_spec expires now') as [B|B]; [lia|].
  unfold denormalized. simpl. rewrite M. reflexivity.
Qed.

Lemma createToken_then_validateToken_witness :
  fst (exec (validateToken binary (generateToken (all_bytes x2a))
               1793000000500 1793000001000) [false; false; false]
         (snd (exec (createToken utc binary alice None (all_bytes x2a)
                       1793000000000 1793000000000) [] (Some [row_c]))))
  = Returned (Some (denormalized alice))
  /\ (user.photo alice <> Some EmptyString -> denormalized alice = alice).
Proof.
  apply (createToken_then_validateToken utc binary alice (all_bytes x2a)
           1793000000000 1793000000000 [] (Some [row_c])).
  - vm_compute. reflexivity.
  - reflexivity.
  - unfold Date.msPerDay. lia.
Defined.

(** C7. [createToken] is all or nothing. When it returns, the table is the
    old one with the rows of the user deleted and the issued row inserted,
    and none of its five calls to the storage layer (the connection, BEGIN,
    the DELETE, the INSERT, COMMIT) has failed. When it throws, whatever the
    step that failed and whether or not the rollback itself failed, the
    table is the old one. A failure of one of the five calls is thrown:
    nothing is tried again. *)
Theorem createToken_is_atomic z C u days rb now NOW fs t o t' :
  exec (createToken z C u days rb now NOW) fs t = (o, t') ->
  (forall tok, o = Returned tok ->
     exists rows mail expires,
       t = Some rows
       /\ t' = Some (without_user C u rows ++ [issued u tok mail expires NOW])%list)
  /\ (forall e, o = Thrown e -> t' = t)
  /\ (quiet (firstn 5 fs) = false -> exists e, o = Thrown e /\ t' = t).
Proof.
  intros H. apply createToken_cases in H.
  destruct H as [(e & -> & ->) | (rows & mail & expires & -> & M & X & U & Q & -> & ->)].
  - split; [| split].
    + intros tok E. discriminate.
    + reflexivity.
    + intros _. exists e. split; reflexivity.
  - split; [| split].
    + intros tok E. injection E as <-. exists rows, mail, expires.
      split; reflexivity.
    + intros e E. discriminate.
    + intros Q'. rewrite Q in Q'. discriminate.
Qed.

Lemma createToken_is_atomic_witness :
  (forall tok, @Thrown string ER_SOCKET_UNEXPECTED_CLOSE = Returned tok ->
     exists rows mail expires,
       Some [row_a; row_b] = Some rows
       /\ Some [row_a; row_b]
          = Some (without_user binary alice rows
                  ++ [issued alice tok mail expires 1793000000000])%list)
  /\ (forall e, @Thrown string ER_SOCKET_UNEXPECTED_CLOSE = Thrown e ->
      Some [row_a; row_b] = Some [row_a; row_b])
  /\ (quiet (firstn 5 [false; false; false; true; true]) = false ->
      exists e, @Thrown string ER_SOCKET_UNEXPECTED_CLOSE = Thrown e
                /\ Some [row_a; row_b] = Some [row_a; row_b]).
Proof.
  apply (createToken_is_atomic utc binary alice None (all_bytes x2a)
           1793000000000 1793000000000 [false; false; false; true; true]
           (Some [row_a; row_b])).
  vm_compute. reflexivity.
Defined.

(** C8. A quiet [createToken], for a user with an e-mail and a token that
    no row of another user has, at a date in the range of [Date]: the row
    it inserts expires [rememberDays] (30 when it is not given) days later
    on the calendar of the host, that is, at the instant whose local time
    is the local time of the clock moved by that many days of 24 hours; its
    [createdAt] and [lastUsed] are both the database clock of the INSERT. *)
Theorem createToken_expires_in_calendar_days
    z C u days rb now NOW fs rows mail :
  quiet fs = true ->
  user.email u = Some mail ->
  Z.abs (Date.UTC z (Date.LocalTime z now + days_or_default days * Date.msPerDay))
  <= 8640000000000000 ->
  existsb (token_is C (generateToken rb)) (without_user C u rows) = false ->
  exists r,
    exec (createToken z C u days rb now NOW) fs (Some rows)
    = (Returned (generateToken rb), Some (without_user C u rows ++ [r])%list)
    /\ row.token r = generateToken rb
    /\ row.expiresAt r
       = Date.UTC z (Date.LocalTime z now + days_or_default days * Date.msPerDay)
    /\ row.createdAt r = NOW
    /\ row.lastUsed r = NOW.
Proof.
  intros Q M R U. apply expiry_in_range in R.
  eexists. split; [apply (createToken_run _ _ _ _ _ _ _ _ _ _ _ Q M R U)|].
  repeat split.
Qed.

Lemma createToken_expires_in_calendar_days_witness :
  exists r,
    exec (createToken spring_forward binary alice (Some 1) (all_bytes x2a)
            1806148800000 1806148800123) [] (Some [row_c])
    = (Returned (generateToken (all_bytes x2a)),
       Some (without_user binary alice [row_c] ++ [r])%list)
    /\ row.token r = generateToken (all_bytes x2a)
    /\ row.expiresAt r
       = Date.UTC spring_forward
           (Date.LocalTime spring_forward 1806148800000
            + days_or_default (Some 1) * Date.msPerDay)
    /\ row.createdAt r = 1806148800123
    /\ row.lastUsed r = 1806148800123.
Proof.
  apply (createToken_expires_in_calendar_days spring_forward binary alice
           (Some 1) (all_bytes x2a) 1806148800000 1806148800123 []
           [row_c] "alice@example.org").
  - reflexivity.
  - reflexivity.
  - vm_compute. discriminate.
  - reflexivity.
Defined.

(** The scenario of the thirty days, on a host on UTC: a token issued at
    [T0] validates at [T0 + 29] days, and at [T0 + 31] days it does not and
    its row is removed. *)
Lemma scenario_thirty_days :
  let T0 := 1793000000000 in
  let tok := generateToken (all_bytes x2a) in
  let t1 := snd (exec (createToken utc binary alice None (all_bytes x2a) T0 T0)
                      [] (Some [])) in
  let day29 := T0 + 29 * Date.msPerDay in
  let day31 := T0 + 31 * Date.msPerDay in
  let t2 := snd (exec (validateToken binary tok day29 day29) [] t1) in
  fst (exec (validateToken binary tok day29 day29) [] t1)
  = Returned (Some alice)
  /\ map row.lastUsed (rows_of t2) = [day29]
  /\ exec (validateToken binary tok day31 day31) [] t2 = (Returned None, Some []).
Proof.
  vm_compute. repeat split.
Qed.

(** On a host that changes its offset within the period, the expiry is not
    the clock plus [rememberDays] times 86400 seconds: one day from
    2027-03-27T12:00:00Z across the change of [spring_forward] is 23 hours. *)
Lemma expiry_is_not_a_fixed_duration :
  expiry spring_forward 1806148800000 (Some 1) = Some (1806148800000 + 82800000)
  /\ expiry spring_forward 1806148800000 (Some 1)
     <> Some (1806148800000 + 1 * Date.msPerDay).
Proof.
  split; [vm_compute; reflexivity | vm_compute; discriminate].
Qed.


(** ** The keys of the table *)

Lemma existsb_filter_le {A} (p q : A -> bool) (l : list A) :
  existsb q l = false -> existsb q (filter p l) = false.
Proof.
  induction l as [|a l IH]; simpl; [reflexivity|].
  intros H. apply orb_false_iff in H. destruct H as [H1 H2].
  destruct (p a); simpl; [rewrite H1; simpl|]; auto.
Qed.

Lemma distinct_by_filter {A} (same : A -> A -> bool) (p : A -> bool) l :
  distinct_by same l = true -> distinct_by same (filter p l) = true.
Proof.
  induction l as [|a l IH]; simpl; [reflexivity|].
  intros H. apply andb_true_iff in H. destruct H as [H1 H2].
  destruct (p a); simpl; [| auto].
  apply andb_true_iff. split; [| auto].
  apply negb_true_iff. apply existsb_filter_le.
  now apply negb_true_iff.
Qed.

Lemma distinct_by_map {A} (same : A -> A -> bool) (f : A -> A) l :
  (forall a b, same (f a) (f b) = same a b) ->
  distinct_by same (map f l) = distinct_by same l.
Proof.
  intros S. induction l as [|a l IH]; simpl; [reflexivity|].
  rewrite IH. f_equal. f_equal.
  clear IH. induction l as [|b l IH]; simpl; [reflexivity|].
  now rewrite S, IH.
Qed.

Lemma distinct_by_app_last {A} (same : A -> A -> bool) l x :
  (forall a b, same a b = same b a) ->
  distinct_by same l = true ->
  existsb (fun a => same a x) l = false ->
  distinct_by same (l ++ [x]) = true.
Proof.
  intros Sy. induction l as [|a l IH]; simpl; [reflexivity|].
  intros H E. apply andb_true_iff in H. destruct H as [H1 H2].
  apply orb_false_iff in E. destruct E as [E1 E2].
  apply andb_true_iff. split; [| auto].
  apply negb_true_iff. rewrite existsb_app. simpl.
  apply negb_true_iff in H1. rewrite H1, Sy, E1. reflexivity.
Qed.

Lemma same_token_sym C r r' : same_token C r r' = same_token C r' r.
Proof. unfold same_token, token_is. apply coll_sym. Qed.

Lemma Provider_eqb_sym p q : Provider_eqb p q = Provider_eqb q p.
Proof. destruct p, q; reflexivity. Qed.

Lemma same_user_sym C r r' : same_user C r r' = same_user C r' r.
Proof.
  unfold same_user, user_is. now rewrite coll_sym, Provider_eqb_sym.
Qed.

Lemma same_token_touch C tok NOW a b :
  same_token C (touch C tok NOW a) (touch C tok NOW b) = same_token C a b.
Proof.
  unfold touch. destruct (token_is C tok a), (token_is C tok b); reflexivity.
Qed.

Lemma same_user_touch C tok NOW a b :
  same_user C (touch C tok NOW a) (touch C tok NOW b) = same_user C a b.
Proof.
  unfold touch. destruct (token_is C tok a), (token_is C tok b); reflexivity.
Qed.

Lemma existsb_user_is_without_user C u rows :
  existsb (user_is C (user.id u) (user.provider u)) (without_user C u rows) = false.
Proof. apply existsb_filter_negb. Qed.

(** Every way a call of [deleteToken] can end. *)
Lemma deleteToken_cases C tok fs t o t' :
  exec (deleteToken C tok) fs t = (o, t') ->
  t' = t \/ exists rows, t = Some rows /\ t' = Some (without_token C tok rows).
Proof.
  destruct fs as [|[] fs]; run.
  2: intros H; injection H as <- <-; left; reflexivity.
  all: try (destruct fs as [|[] fs]; run).
  all: destruct t as [rows|]; intros H; injection H as <- <-.
  all: try (left; reflexivity).
  all: right; exists rows; split; reflexivity.
Qed.

(** Every way a call of [initializeTable] can end. *)
Lemma initializeTable_cases NOW fs t o t' :
  exec (initializeTable NOW) fs t = (o, t') ->
  t' = t \/ t' = Some (rows_of t) \/ t' = Some (live_at NOW (rows_of t)).
Proof.
  destruct fs as [|[] fs]; run.
  2: intros H; injection H as <- <-; left; reflexivity.
  all: try (destruct fs as [|[] fs]; run).
  all: destruct t as [rows|]; try (destruct fs as [|[] fs]; run).
  all: intros H; injection H as <- <-; auto.
Qed.

Lemma well_keyed_rows C rows :
  well_keyed C (Some rows) = true <->
  distinct_by (same_token C) rows = true /\ distinct_by (same_user C) rows = true.
Proof. unfold well_keyed. simpl. apply andb_true_iff. Qed.

Lemma well_keyed_filter C p rows :
  well_keyed C (Some rows) = true -> well_keyed C (Some (filter p rows)) = true.
Proof.
  rewrite !well_keyed_rows. intros [H1 H2].
  split; apply distinct_by_filter; assumption.
Qed.

(** No call of the module breaks the keys of the table. *)
Lemma well_keyed_after z C c fs t :
  well_keyed C t = true -> well_keyed C (after z C c fs t) = true.
Proof.
  intros W. destruct c as [u d rb now NOW | tok now NOW | tok | NOW]; unfold after.
  - destruct (exec (createToken z C u d rb now NOW) fs t) as [o t'] eqn:E.
    apply createToken_cases in E.
    destruct E as [(e & _ & ->) | (rows & mail & expires & -> & _ & _ & U & _ & _ & ->)];
      [exact W|].
    simpl. apply (well_keyed_filter _ (fun r => negb (user_is C (user.id u) (user.provider u) r))) in W.
    apply well_keyed_rows in W. destruct W as [W1 W2].
    apply well_keyed_rows. split.
    + apply distinct_by_app_last; [apply same_token_sym | exact W1 | exact U].
    + apply distinct_by_app_last; [apply same_user_sym | exact W2 |].
      apply existsb_user_is_without_user.
  - destruct (exec (validateToken C tok now NOW) fs t) as [o t'] eqn:E.
    apply validateToken_cases in E.
    destruct E as [[-> _] | [(rows & -> & -> & _) | (rows & r & -> & -> & _)]];
      [exact W | apply well_keyed_filter; exact W |].
    simpl. apply well_keyed_rows in W. destruct W as [W1 W2].
    apply well_keyed_rows. split.
    + rewrite distinct_by_map; [exact W1 | apply same_token_touch].
    + rewrite distinct_by_map; [exact W2 | apply same_user_touch].
  - destruct (exec (deleteToken C tok) fs t) as [o t'] eqn:E.
    apply deleteToken_cases in E.
    destruct E as [-> | (rows & -> & ->)];
      [exact W | apply well_keyed_filter; exact W].
  - destruct (exec (initializeTable NOW) fs t) as [o t'] eqn:E.
    apply initializeTable_cases in E.
    destruct E as [-> | [-> | ->]]; [exact W | | ].
    + destruct t; exact W.
    + apply well_keyed_filter. destruct t; exact W.
Qed.

Lemma reachable_well_keyed z C t :
  reachable z C t -> well_keyed C t = true.
Proof.
  induction 1 as [|c fs t R IH]; [reflexivity | now apply well_keyed_after].
Qed.

(** In a table with unique tokens, the lookup by the token of a stored row
    finds that row. *)
Lemma stored_token_found C rows r :
  distinct_by (same_token C) rows = true ->
  In r rows ->
  find (token_is C (row.token r)) rows = Some r.
Proof.
  induction rows as [|a rows IH]; simpl; intros D I; [destruct I|].
  apply andb_true_iff in D. destruct D as [D1 D2].
  destruct I as [-> | I].
  - unfold token_is at 1. rewrite coll_refl. reflexivity.
  - destruct (token_is C (row.token r) a) eqn:E; [| apply IH; assumption].
    apply negb_true_iff in D1.
    assert (existsb (fun b => same_token C b a) rows = true) as X.
    { apply existsb_exists. exists r. split; [exact I|].
      unfold same_token, token_is in *. rewrite coll_sym. exact E. }
    rewrite X in D1. discriminate.
Qed.

Lemma reachable_stored_token_found z C t r :
  reachable z C t ->
  In r (rows_of t) ->
  find (token_is C (row.token r)) (rows_of t) = Some r.
Proof.
  intros R. apply reachable_well_keyed in R.
  unfold well_keyed in R. apply andb_true_iff in R. destruct R as [R _].
  now apply stored_token_found.
Qed.

Lemma filter_app_last_user C u rows x :
  user_is C (user.id u) (user.provider u) x = true ->
  filter (user_is C (user.id u) (user.provider u)) (without_user C u rows ++ [x])
  = [x].
Proof.
  intros X. rewrite filter_app. unfold without_user.
  rewrite filter_filter_negb. simpl. rewrite X. reflexivity.
Qed.

(** C2. At most one row per identity, at any time: every table the module
    can produce, by any calls under any faults, holds at most one row per
    [(userId, provider)]. And issuing replaces: when [createToken] has
    returned a token for a user and then returns a second token for a user
    with the same [id] and [provider], the table holds exactly one row of
    that identity, the second one, and a quiet [validateToken] of the first
    token, which the second call did not draw again, returns [null]. *)
Theorem one_token_per_identity z C :
  (forall t, reachable z C t -> distinct_by (same_user C) (rows_of t) = true)
  /\ (forall u1 u2 d1 d2 rb1 rb2 now1 now2 NOW1 NOW2 fs1 fs2 t0 t1 t2 tok1 tok2,
        exec (createToken z C u1 d1 rb1 now1 NOW1) fs1 t0 = (Returned tok1, t1) ->
        exec (createToken z C u2 d2 rb2 now2 NOW2) fs2 t1 = (Returned tok2, t2) ->
        coll_eqb C (user.id u1) (user.id u2) = true ->
        user.provider u1 = user.provider u2 ->
        coll_eqb C tok2 tok1 = false ->
        (forall now3 NOW3 fs3,
           quiet fs3 = true ->
           exec (validateToken C tok1 now3 NOW3) fs3 t2 = (Returned None, t2))
        /\ exists r,
             filter (user_is C (user.id u2) (user.provider u2)) (rows_of t2) = [r]
             /\ row.token r = tok2).
Proof.
  split.
  - intros t R. apply reachable_well_keyed in R.
    unfold well_keyed in R. apply andb_true_iff in R. apply R.
  - intros u1 u2 d1 d2 rb1 rb2 now1 now2 NOW1 NOW2 fs1 fs2 t0 t1 t2 tok1 tok2
      H1 H2 I P D.
    apply createToken_cases in H1.
    destruct H1 as [(e & H & _) | (rows0 & m1 & x1 & -> & _ & _ & U1 & _ & T1 & ->)];
      [discriminate|].
    injection T1 as ->.
    apply createToken_cases in H2.
    destruct H2 as [(e & H & _) | (rows1 & m2 & x2 & R1 & _ & _ & U2 & _ & T2 & ->)];
      [discriminate|].
    injection T2 as ->. injection R1 as <-.
    assert (without_user C u2 (without_user C u1 rows0
                               ++ [issued u1 (generateToken rb1) m1 x1 NOW1])
            = without_user C u1 rows0) as W.
    { assert (forall rows, without_user C u2 rows = without_user C u1 rows) as S.
      { intros rows. unfold without_user. apply filter_ext. intros r.
        rewrite <- P. rewrite coll_sym in I.
        now rewrite (user_is_congr C _ _ _ r I). }
      rewrite S, without_user_app, without_user_idem.
      unfold without_user at 2. simpl. rewrite user_is_issued. simpl.
      apply app_nil_r. }
    split.
    + intros now3 NOW3 fs3 Q. rewrite W in *.
      rewrite (quiet_validateToken _ _ _ _ _ _ Q), validateToken_run.
      rewrite (find_app_last _ _ _ U1), token_is_issued, D. reflexivity.
    + exists (issued u2 (generateToken rb2) m2 x2 NOW2).
      split; [| reflexivity]. simpl.
      apply filter_app_last_user. apply user_is_issued.
Qed.

Lemma one_token_per_identity_witness :
  (forall now3 NOW3 fs3,
     quiet fs3 = true ->
     exec (validateToken binary (generateToken (all_bytes x2a)) now3 NOW3) fs3
          (Some [row_c;
                 issued alice (generateToken (all_bytes x2b))
                        "alice@example.org" 1795593000000 1793001000000])
     = (Returned None,
        Some [row_c;
              issued alice (generateToken (all_bytes x2b))
                     "alice@example.org" 1795593000000 1793001000000]))
  /\ exists r,
       filter (user_is binary (user.id alice) (user.provider alice))
              (rows_of
                 (Some [row_c;
                        issued alice (generateToken (all_bytes x2b))
                               "alice@example.org" 1795593000000 1793001000000]))
       = [r]
       /\ row.token r = generateToken (all_bytes x2b).
Proof.
  apply (proj2 (one_token_per_identity utc binary)
           alice alice None None (all_bytes x2a) (all_bytes x2b)
           1793000000000 1793001000000 1793000000000 1793001000000 [] []
           (Some [row_c])
           (Some [row_c;
                  issued alice (generateToken (all_bytes x2a))
                         "alice@example.org" 1795592000000 1793000000000])).
  - vm_compute. reflexivity.
  - vm_compute. reflexivity.
  - reflexivity.
  - reflexivity.
  - reflexivity.
Defined.

(** ** The start-up sweep *)

Lemma quiet_startup NOW fs t :
  quiet fs = true ->
  exec (startup NOW) fs t = exec (startup NOW) [] t.
Proof.
  intros Q. unfold quiet in Q.
  do 2 (destruct fs as [|[] fs]; try discriminate; try reflexivity).
  destruct fs as [|[] fs]; try discriminate; try reflexivity.
  destruct fs as [|[] fs]; try discriminate; run; destruct t; try reflexivity.
  all: destruct fs as [|[] fs]; try discriminate; reflexivity.
Qed.

Lemma initializeTable_run NOW t :
  exec (initializeTable NOW) [] t = (Returned tt, Some (live_at NOW (rows_of t))).
Proof. destruct t; reflexivity. Qed.

Lemma startup_run NOW t :
  exec (startup NOW) [] t = (Returned tt, Some (live_at NOW (rows_of t))).
Proof. destruct t; reflexivity. Qed.

(** C9. The sweep of the start-up deletes the expired rows and only them.
    A quiet [initializeTable], and so the start-up block of the server,
    which runs it once [testConnection] has answered, leaves the table with
    the rows whose [expiresAt] is not before the database clock, as they
    were and in their order: a row is in the table afterwards exactly when
    it was there before and is not expired. *)
Theorem startup_sweeps_expired_rows NOW fs t :
  quiet fs = true ->
  exec (initializeTable NOW) fs t
  = (Returned tt, Some (filter (fun r => NOW <=? row.expiresAt r) (rows_of t)))
  /\ exec (startup NOW) fs t
     = (Returned tt, Some (filter (fun r => NOW <=? row.expiresAt r) (rows_of t)))
  /\ forall r,
       In r (filter (fun r => NOW <=? row.expiresAt r) (rows_of t))
       <-> In r (rows_of t) /\ ~ row.expiresAt r < NOW.
Proof.
  intros Q.
  assert (live_at NOW (rows_of t)
          = filter (fun r => NOW <=? row.expiresAt r) (rows_of t)) as L.
  { unfold live_at, expired_at. apply filter_ext. intros r.
    rewrite Z.leb_antisym. reflexivity. }
  rewrite (quiet_initializeTable _ _ _ Q), (quiet_startup _ _ _ Q).
  rewrite initializeTable_run, startup_run, L.
  split; [reflexivity|]. split; [reflexivity|].
  intros r. rewrite filter_In, Z.leb_le.
  split; intros [I E]; (split; [exact I | lia]).
Qed.

Lemma startup_sweeps_expired_rows_witness :
  exec (initializeTable 5000) [false; false; false] (Some [row_a; row_b; row_c])
  = (Returned tt,
     Some (filter (fun r => 5000 <=? row.expiresAt r)
                  (rows_of (Some [row_a; row_b; row_c]))))
  /\ exec (startup 5000) [false; false; false] (Some [row_a; row_b; row_c])
     = (Returned tt,
        Some (filter (fun r => 5000 <=? row.expiresAt r)
                     (rows_of (Some [row_a; row_b; row_c]))))
  /\ forall r,
       In r (filter (fun r => 5000 <=? row.expiresAt r)
                    (rows_of (Some [row_a; row_b; row_c])))
       <-> In r (rows_of (Some [row_a; row_b; row_c])) /\ ~ row.expiresAt r < 5000.
Proof.
  apply (startup_sweeps_expired_rows 5000 [false; false; false]
           (Some [row_a; row_b; row_c])).
  reflexivity.
Defined.

(** The scenario of the sweep: of three rows, two expired, the live one
    remains. *)
Lemma startup_three_rows :
  exec (startup 5000) [] (Some [row_a; row_b; row_c]) = (Returned tt, Some [row_c]).
Proof. reflexivity. Qed.

(** When the store cannot be reached, the start-up goes on without a
    sweep. *)
Lemma startup_without_store NOW fs t :
  exec (startup NOW) (true :: fs) t = (Returned tt, t).
Proof. reflexivity. Qed.

(** * Further properties of the module *)

(** ** [generateToken] *)

Lemma hex_digit_hex_lower n : hex_lower (hex_digit n) = true.
Proof.
  destruct n as [|p]; [reflexivity|].
  do 5 (try destruct p as [p|p|]); reflexivity.
Qed.

Lemma toString_hex_hex_lower l :
  forallb hex_lower (list_ascii_of_string (toString_hex l)) = true.
Proof.
  induction l as [|b l IH]; [reflexivity|].
  cbn [toString_hex list_ascii_of_string forallb].
  now rewrite !hex_digit_hex_lower, IH.
Qed.

(** X1. A token keeps all the entropy of its draw: two calls of
    [generateToken] give the same token exactly when [crypto.randomBytes]
    gave them the same bytes. *)
Theorem generateToken_injective rb1 rb2 :
  generateToken rb1 = generateToken rb2 <-> rb1 32%nat = rb2 32%nat.
Proof.
  unfold generateToken. split.
  - apply toString_hex_inj.
  - intros E. rewrite E. reflexivity.
Qed.

(** X2. The token of 32 random bytes is a string of 64 characters, the
    width of the [token] column, all of them among [0-9a-f]. *)
Theorem generateToken_format rb :
  List.length (rb 32%nat) = 32%nat ->
  String.length (generateToken rb) = 64%nat
  /\ forallb hex_lower (list_ascii_of_string (generateToken rb)) = true.
Proof.
  intros H. split.
  - apply generateToken_length. exact H.
  - unfold generateToken. apply toString_hex_hex_lower.
Qed.

Lemma generateToken_format_witness :
  String.length (generateToken (all_bytes xff)) = 64%nat
  /\ forallb hex_lower (list_ascii_of_string (generateToken (all_bytes xff))) = true.
Proof.
  apply (generateToken_format (all_bytes xff)). reflexivity.
Defined.

(** ** [createToken] *)

(** X3. A user without an e-mail gets no token: [createToken] throws,
    whatever the faults, and the table is as before, so that a token the
    user already had is still there; on an existing table and without
    faults the error is that of the NOT NULL column [userEmail]. *)
Theorem createToken_needs_an_email z C u days rb now NOW fs t :
  user.email u = None ->
  (exists e, exec (createToken z C u days rb now NOW) fs t = (Thrown e, t))
  /\ (quiet fs = true ->
      forall rows, t = Some rows ->
      exec (createToken z C u days rb now NOW) fs t
      = (Thrown ER_BAD_NULL_ERROR, t)).
Proof.
  intros N. split.
  - destruct (exec (createToken z C u days rb now NOW) fs t) as [o t'] eqn:E.
    apply createToken_cases in E.
    destruct E as [(e & -> & ->) | (rows & mail & _ & _ & M & _)].
    + exists e. reflexivity.
    + rewrite N in M. discriminate.
  - intros Q rows ->. unfold createToken.
    destruct u as [uid up un mail ph]. simpl in N. subst mail.
    cbn [user.id user.provider user.name user.email user.photo].
    generalize (generateToken rb). intros tok.
    match goal with
    | |- context [Date.setDate ?a ?b ?c] => generalize (Date.setDate a b c)
    end.
    intros ex. unfold quiet in Q.
    do 6 (run; try reflexivity; try (destruct fs as [|[] fs]; try discriminate Q)).
Qed.

Lemma createToken_needs_an_email_witness :
  (exists e,
      exec (createToken utc binary (user.mk "2002" facebook "Bob" None None)
              None (all_bytes x2a) 1793000000000 1793000000000)
           [] (Some [row_b])
      = (Thrown e, Some [row_b]))
  /\ (quiet [] = true ->
      forall rows, Some [row_b] = Some rows ->
      exec (createToken utc binary (user.mk "2002" facebook "Bob" None None)
              None (all_bytes x2a) 1793000000000 1793000000000)
           [] (Some [row_b])
      = (Thrown ER_BAD_NULL_ERROR, Some [row_b])).
Proof.
  apply (createToken_needs_an_email utc binary
           (user.mk "2002" facebook "Bob" None None) None (all_bytes x2a)
           1793000000000 1793000000000 [] (Some [row_b])).
  reflexivity.
Defined.

Lemma without_user_issued C u tok mail expires NOW :
  without_user C u [issued u tok mail expires NOW] = [].
Proof.
  unfold without_user. simpl. rewrite user_is_issued. reflexivity.
Qed.

(** X4. [createToken] touches the rows of its user only: however the call
    ends, the rows of the other identities are the same rows, in the same
    order, before and after it. *)
Theorem createToken_keeps_other_users z C u days rb now NOW fs t :
  without_user C u (rows_of (snd (exec (createToken z C u days rb now NOW) fs t)))
  = without_user C u (rows_of t).
Proof.
  destruct (exec (createToken z C u days rb now NOW) fs t) as [o t'] eqn:E.
  apply createToken_cases in E.
  destruct E as [(e & _ & ->) | (rows & mail & expires & -> & _ & _ & _ & _ & _ & ->)];
    [reflexivity|].
  cbn [snd rows_of].
  rewrite without_user_app, without_user_idem, without_user_issued.
  apply app_nil_r.
Qed.

(** X5. The token that is drawn is not checked before the INSERT. When a
    row of another identity already has it, the UNIQUE index refuses the
    INSERT: a quiet [createToken] throws, and the rollback gives back the
    rows of the user that the DELETE had removed. When only rows of the
    user itself have it, the call succeeds. *)
Theorem createToken_on_a_token_in_use z C u days rb now NOW fs rows mail expires :
  quiet fs = true ->
  user.email u = Some mail ->
  expiry z now days = Some expires ->
  exec (createToken z C u days rb now NOW) fs (Some rows)
  = if existsb (token_is C (generateToken rb)) (without_user C u rows)
    then (Thrown ER_DUP_ENTRY, Some rows)
    else (Returned (generateToken rb),
          Some (without_user C u rows
                ++ [issued u (generateToken rb) mail expires NOW])%list).
Proof.
  intros Q M X.
  destruct (existsb (token_is C (generateToken rb)) (without_user C u rows)) eqn:E;
    [| apply createToken_run; assumption].
  revert M X E.
  unfold expiry, days_or_default, without_user, createToken.
  destruct u as [uid up un mail' ph].
  cbn [user.id user.provider user.name user.email user.photo].
  intros -> -> E. unfold quiet in Q.
  do 6 (run; try rewrite E; try reflexivity;
        try (destruct fs as [|[] fs]; try discriminate Q)).
Qed.

Lemma createToken_on_a_token_in_use_witness :
  exec (createToken utc binary alice None (all_bytes x2a)
          1793000000000 1793000000500) []
       (Some [row_a;
              issued bob (generateToken (all_bytes x2a)) "bob@example.org"
                     1795000000000 1792000000000])
  = if existsb (token_is binary (generateToken (all_bytes x2a)))
         (without_user binary alice
            [row_a;
             issued bob (generateToken (all_bytes x2a)) "bob@example.org"
                    1795000000000 1792000000000])
    then (Thrown ER_DUP_ENTRY,
          Some [row_a;
                issued bob (generateToken (all_bytes x2a)) "bob@example.org"
                       1795000000000 1792000000000])
    else (Returned (generateToken (all_bytes x2a)),
          Some (without_user binary alice
                  [row_a;
                   issued bob (generateToken (all_bytes x2a)) "bob@example.org"
                          1795000000000 1792000000000]
                ++ [issued alice (generateToken (all_bytes x2a))
                           "alice@example.org" 1795592000000 1793000000500])%list).
Proof.
  apply (createToken_on_a_token_in_use utc binary alice None (all_bytes x2a)
           1793000000000 1793000000500 []).
  - reflexivity.
  - reflexivity.
  - vm_compute. reflexivity.
Defined.



(** ** [validateToken] *)

Lemma without_token_idem C tok rows :
  without_token C tok (without_token C tok rows) = without_token C tok rows.
Proof.
  unfold without_token. induction rows as [|r rows IH]; simpl; [reflexivity|].
  destruct (token_is C tok r) eqn:E; simpl;
    [exact IH | rewrite E; simpl; now rewrite IH].
Qed.

Lemma token_is_touch C tok tok' NOW r :
  token_is C tok' (touch C tok NOW r) = token_is C tok' r.
Proof. unfold touch. destruct (token_is C tok r); reflexivity. Qed.

Lemma without_token_touch C tok NOW rows :
  without_token C tok (map (touch C tok NOW) rows) = without_token C tok rows.
Proof.
  unfold without_token. induction rows as [|r rows IH]; simpl; [reflexivity|].
  rewrite token_is_touch, IH.
  destruct (token_is C tok r) eqn:E; simpl; [reflexivity|].
  unfold touch. rewrite E. reflexivity.
Qed.

Lemma find_map_touch C tok NOW rows :
  find (token_is C tok) (map (touch C tok NOW) rows)
  = option_map (row.with_lastUsed NOW) (find (token_is C tok) rows).
Proof.
  induction rows as [|r rows IH]; simpl; [reflexivity|].
  rewrite token_is_touch. destruct (token_is C tok r) eqn:E; [| exact IH].
  unfold touch. rewrite E. reflexivity.
Qed.

Lemma touch_touch C tok NOW1 NOW2 r :
  touch C tok NOW2 (touch C tok NOW1 r) = touch C tok NOW2 r.
Proof.
  unfold touch at 1. rewrite token_is_touch.
  unfold touch. destruct (token_is C tok r); reflexivity.
Qed.

(** X7. A token that no row has: [validateToken] never returns a user for
    it and leaves the table as it was, whatever the faults; a quiet call
    returns [null]. *)
Theorem validateToken_unknown_token C tok now NOW fs rows :
  existsb (token_is C tok) rows = false ->
  snd (exec (validateToken C tok now NOW) fs (Some rows)) = Some rows
  /\ (forall u,
        fst (exec (validateToken C tok now NOW) fs (Some rows))
        <> Returned (Some u))
  /\ (quiet fs = true ->
      fst (exec (validateToken C tok now NOW) fs (Some rows)) = Returned None).
Proof.
  intros N.
  assert (find (token_is C tok) rows = None) as F.
  { apply filter_nil_find. apply existsb_false_filter in N. apply N. }
  destruct (exec (validateToken C tok now NOW) fs (Some rows)) as [o t'] eqn:E.
  pose proof E as E'. apply validateToken_cases in E'.
  destruct E' as [[-> K] | [(rows' & R & -> & ->) | (rows' & r & R & _ & F' & _)]].
  - split; [reflexivity|]. split; [exact K|].
    intros Q. rewrite (quiet_validateToken _ _ _ _ _ _ Q), validateToken_run, F in E.
    injection E as <-. reflexivity.
  - injection R as <-. apply existsb_false_filter in N. destruct N as [_ N].
    unfold without_token. rewrite N.
    split; [reflexivity|]. split; [discriminate | reflexivity].
  - injection R as <-. rewrite F in F'. discriminate.
Qed.

Lemma validateToken_unknown_token_witness :
  snd (exec (validateToken binary "zz" 1500 1500) [false; true] (Some [row_a; row_b]))
  = Some [row_a; row_b]
  /\ (forall u,
        fst (exec (validateToken binary "zz" 1500 1500) [false; true]
               (Some [row_a; row_b]))
        <> Returned (Some u))
  /\ (quiet [false; true] = true ->
      fst (exec (validateToken binary "zz" 1500 1500) [false; true]
             (Some [row_a; row_b]))
      = Returned None).
Proof.
  apply (validateToken_unknown_token binary "zz" 1500 1500 [false; true]
           [row_a; row_b]).
  reflexivity.
Defined.

(** X8. [validateToken] touches the rows of its token only: however the
    call ends, the rows with another token are the same rows, in the same
    order and with the same [lastUsed], before and after it. *)
Theorem validateToken_keeps_other_tokens C tok now NOW fs t :
  without_token C tok (rows_of (snd (exec (validateToken C tok now NOW) fs t)))
  = without_token C tok (rows_of t).
Proof.
  destruct (exec (validateToken C tok now NOW) fs t) as [o t'] eqn:E.
  apply validateToken_cases in E.
  destruct E as [[-> _] | [(rows & -> & -> & _) | (rows & r & -> & -> & _)]];
    cbn [snd rows_of].
  - reflexivity.
  - apply without_token_idem.
  - apply without_token_touch.
Qed.

(** X9. Validation does not use the token up. After a quiet validation
    that found a live row, a second quiet validation, at a host clock that
    is still not after the expiry, returns the same snapshot, and the table
    is the one before the two calls touched at the database clock of the
    second. *)
Theorem validateToken_twice C tok now1 NOW1 now2 NOW2 fs1 fs2 rows r :
  quiet fs1 = true ->
  quiet fs2 = true ->
  find (token_is C tok) rows = Some r ->
  now1 <= row.expiresAt r ->
  now2 <= row.expiresAt r ->
  exec (validateToken C tok now2 NOW2) fs2
       (snd (exec (validateToken C tok now1 NOW1) fs1 (Some rows)))
  = (Returned (Some (snapshot r)), Some (map (touch C tok NOW2) rows)).
Proof.
  intros Q1 Q2 F L1 L2.
  rewrite (quiet_validateToken _ _ _ _ _ _ Q1), validateToken_run, F.
  apply Z.ltb_ge in L1. rewrite L1. cbn [snd].
  rewrite (quiet_validateToken _ _ _ _ _ _ Q2), validateToken_run.
  rewrite find_map_touch, F. cbn [option_map row.expiresAt row.with_lastUsed].
  apply Z.ltb_ge in L2. rewrite L2. f_equal.
  f_equal. rewrite map_map. apply map_ext. intros a. apply touch_touch.
Qed.

Lemma validateToken_twice_witness :
  exec (validateToken binary "cc" 6000 6001) []
       (snd (exec (validateToken binary "cc" 4000 4001) [] (Some [row_a; row_c])))
  = (Returned (Some (snapshot row_c)),
     Some (map (touch binary "cc" 6001) [row_a; row_c])).
Proof.
  apply (validateToken_twice binary "cc" 4000 4001 6000 6001 [] []
           [row_a; row_c] row_c).
  - reflexivity.
  - reflexivity.
  - reflexivity.
  - simpl. lia.
  - simpl. lia.
Defined.

(** Whatever the faults, a user that [validateToken] returns is the
    snapshot of the row it found, which is not expired. *)
Lemma validateToken_returns_a_live_row C tok now NOW fs t u :
  fst (exec (validateToken C tok now NOW) fs t) = Returned (Some u) ->
  exists r,
    find (token_is C tok) (rows_of t) = Some r
    /\ now <= row.expiresAt r
    /\ u = snapshot r.
Proof.
  destruct fs as [|[] fs]; run; cbn [fst]; try discriminate.
  all: try (destruct fs as [|[] fs]; run; cbn [fst]; try discriminate).
  all: destruct t as [rows|]; cbn [fst]; try discriminate.
  all: destruct (find (token_is C tok) rows) as [r|] eqn:F;
    [ pose proof F as F'; apply filter_cons_find in F'; destruct F' as [rest ->]
    | pose proof F as F'; apply filter_nil_find in F'; rewrite F';
      cbn [fst]; discriminate ].
  all: destruct (Z.ltb_spec (row.expiresAt r) now) as [L|L];
    cbn [fst]; try discriminate.
  all: try (destruct fs as [|[] fs]; run; cbn [fst]; try discriminate).
  all: intros H; injection H as <-.
  all: exists r; repeat split; assumption.
Qed.

(** X10. [validateToken] authenticates stored, live tokens only: whatever
    the faults, when it returns a user there is a row in the table with
    that token (up to the collation) whose [expiresAt] is not before the
    host clock, and the user is the snapshot of that row. *)
Theorem validateToken_is_sound C tok now NOW fs t u :
  fst (exec (validateToken C tok now NOW) fs t) = Returned (Some u) ->
  exists r,
    In r (rows_of t)
    /\ token_is C tok r = true
    /\ now <= row.expiresAt r
    /\ u = snapshot r.
Proof.
  intros H. apply validateToken_returns_a_live_row in H.
  destruct H as (r & F & L & ->).
  apply find_some in F. destruct F as [I T].
  exists r. repeat split; assumption.
Qed.

Lemma validateToken_is_sound_witness :
  exists r,
    In r (rows_of (Some [row_a; row_c]))
    /\ token_is binary "cc" r = true
    /\ 4000 <= row.expiresAt r
    /\ snapshot row_c = snapshot r.
Proof.
  apply (validateToken_is_sound binary "cc" 4000 4001 [] (Some [row_a; row_c])).
  reflexivity.
Defined.

(** ** [deleteToken] *)

(** X11. [deleteToken] under faults. When it throws, the table is as
    before. When it returns, the table had been created, the rows with the
    token are gone, the others are as before, and what it returns tells
    whether there was a row to remove: it returns [true] only for a token
    that was stored. *)
Theorem deleteToken_under_faults C tok fs t o t' :
  exec (deleteToken C tok) fs t = (o, t') ->
  (forall e, o = Thrown e -> t' = t)
  /\ (forall b, o = Returned b ->
        exists rows,
          t = Some rows
          /\ t' = Some (without_token C tok rows)
          /\ b = existsb (token_is C tok) rows).
Proof.
  assert (forall rows,
             (0 <? Z.of_nat (List.length (filter (token_is C tok) rows)))
             = existsb (token_is C tok) rows) as B.
  { intros rows. destruct (existsb (token_is C tok) rows) eqn:E.
    - apply existsb_true_filter in E. apply Z.ltb_lt. exact E.
    - apply existsb_false_filter in E. destruct E as [-> _]. reflexivity. }
  destruct fs as [|[] fs]; run.
  2: { intros H; injection H as <- <-. split; [reflexivity | discriminate]. }
  all: try (destruct fs as [|[] fs]; run).
  all: destruct t as [rows|]; intros H; injection H as <- <-.
  all: split; [intros e E; try discriminate E; reflexivity |].
  all: intros b E; try discriminate E; injection E as <-.
  all: exists rows; repeat split; apply B.
Qed.

Lemma deleteToken_under_faults_witness :
  (forall e, @Thrown bool ER_SOCKET_UNEXPECTED_CLOSE = Thrown e ->
             Some [row_a; row_b] = Some [row_a; row_b])
  /\ (forall b, @Thrown bool ER_SOCKET_UNEXPECTED_CLOSE = Returned b ->
        exists rows,
          Some [row_a; row_b] = Some rows
          /\ Some [row_a; row_b] = Some (without_token binary "aa" rows)
          /\ b = existsb (token_is binary "aa") rows).
Proof.
  apply (deleteToken_under_faults binary "aa" [false; true] (Some [row_a; row_b])).
  reflexivity.
Defined.

(** X12. [deleteToken] is idempotent: after a quiet call, a second quiet
    call for the same token returns [false] and changes nothing. *)
Theorem deleteToken_twice C tok fs1 fs2 rows :
  quiet fs1 = true ->
  quiet fs2 = true ->
  exec (deleteToken C tok) fs2 (snd (exec (deleteToken C tok) fs1 (Some rows)))
  = (Returned false, Some (without_token C tok rows)).
Proof.
  intros Q1 Q2.
  rewrite (quiet_deleteToken _ _ _ _ Q1), deleteToken_run. cbn [snd].
  rewrite (quiet_deleteToken _ _ _ _ Q2), deleteToken_run.
  unfold without_token at 1. rewrite existsb_filter_negb.
  now rewrite without_token_idem.
Qed.

Lemma deleteToken_twice_witness :
  exec (deleteToken binary "aa") [false]
       (snd (exec (deleteToken binary "aa") [] (Some [row_a; row_b])))
  = (Returned false, Some (without_token binary "aa" [row_a; row_b])).
Proof.
  apply (deleteToken_twice binary "aa" [] [false] [row_a; row_b]).
  - reflexivity.
  - reflexivity.
Defined.

(** ** [initializeTable], [testConnection] and the start of the server *)

Lemma live_at_live_at n1 n2 rows :
  live_at n2 (live_at n1 rows) = live_at (Z.max n1 n2) rows.
Proof.
  unfold live_at, expired_at. induction rows as [|r rows IH]; [reflexivity|].
  cbn [filter].
  destruct (Z.ltb_spec (row.expiresAt r) n1) as [A|A];
    destruct (Z.ltb_spec (row.expiresAt r) (Z.max n1 n2)) as [B|B];
    cbn [negb filter]; try lia.
  - exact IH.
  - destruct (Z.ltb_spec (row.expiresAt r) n2) as [D|D]; [| lia].
    cbn [negb]. exact IH.
  - destruct (Z.ltb_spec (row.expiresAt r) n2) as [D|D]; [lia|].
    cbn [negb]. now rewrite IH.
Qed.

Lemma live_at_all n rows :
  (forall r, In r rows -> n <= row.expiresAt r) -> live_at n rows = rows.
Proof.
  unfold live_at, expired_at. induction rows as [|r rows IH]; simpl; [reflexivity|].
  intros H. destruct (Z.ltb_spec (row.expiresAt r) n) as [L|L]; simpl.
  - specialize (H r (or_introl eq_refl)). lia.
  - rewrite IH; [reflexivity|]. intros r' I. apply H. right. exact I.
Qed.

(** X13. [initializeTable] can run at every start. Running it again, in a
    quiet call at a database clock that is not earlier, gives the table
    that the later run alone gives; and on a table without an expired row
    a quiet run changes nothing. *)
Theorem initializeTable_again NOW1 NOW2 fs1 fs2 rows :
  quiet fs1 = true ->
  quiet fs2 = true ->
  NOW1 <= NOW2 ->
  exec (initializeTable NOW2) fs2
       (snd (exec (initializeTable NOW1) fs1 (Some rows)))
  = exec (initializeTable NOW2) fs2 (Some rows)
  /\ ((forall r, In r rows -> NOW1 <= row.expiresAt r) ->
      exec (initializeTable NOW1) fs1 (Some rows) = (Returned tt, Some rows)).
Proof.
  intros Q1 Q2 L.
  rewrite (quiet_initializeTable _ _ _ Q1), initializeTable_run.
  rewrite !(quiet_initializeTable _ _ _ Q2), !initializeTable_run.
  cbn [snd rows_of]. split.
  - rewrite live_at_live_at. now rewrite Z.max_r.
  - intros H. now rewrite live_at_all.
Qed.

Lemma initializeTable_again_witness :
  exec (initializeTable 5000) []
       (snd (exec (initializeTable 1500) [] (Some [row_a; row_b; row_c])))
  = exec (initializeTable 5000) [] (Some [row_a; row_b; row_c])
  /\ ((forall r, In r [row_a; row_b; row_c] -> 1500 <= row.expiresAt r) ->
      exec (initializeTable 1500) [] (Some [row_a; row_b; row_c])
      = (Returned tt, Some [row_a; row_b; row_c])).
Proof.
  apply (initializeTable_again 1500 5000 [] [] [row_a; row_b; row_c]).
  - reflexivity.
  - reflexivity.
  - lia.
Defined.

(** X14. [db.testConnection()] never throws and never changes the table:
    whatever the faults, it returns [true] when both the connection and
    [SELECT 1] succeeded, and [false] otherwise. *)
Theorem testConnection_reports fs t :
  exec testConnection fs t = (Returned (quiet (firstn 2 fs)), t).
Proof.
  destruct fs as [|[] fs]; try reflexivity.
  destruct fs as [|[] fs]; reflexivity.
Qed.

(** X15. The start-up block never throws, whatever the faults, and never
    loses a live row: every row of the table whose [expiresAt] is not
    before the database clock is still in the table after it. *)
Theorem startup_is_safe NOW fs t :
  fst (exec (startup NOW) fs t) = Returned tt
  /\ forall r,
       In r (rows_of t) ->
       NOW <= row.expiresAt r ->
       In r (rows_of (snd (exec (startup NOW) fs t))).
Proof.
  assert (forall r rows, In r rows -> NOW <= row.expiresAt r ->
                         In r (filter (fun r => negb (expired_at NOW r)) rows)) as K.
  { intros r rows I L. apply filter_In. split; [exact I|].
    unfold expired_at. apply negb_true_iff. apply Z.ltb_ge. exact L. }
  run.
  repeat match goal with
         | |- context [match ?l with [] => _ | _ :: _ => _ end] =>
             is_var l; destruct l as [|[] l]; run
         | |- context [match ?s with Some _ => _ | None => _ end] =>
             is_var s; destruct s; run
         end.
  all: cbn [fst snd rows_of]; split;
    [ reflexivity
    | intros r I L; first [exact I | destruct I | apply K; assumption] ].
Qed.

(** X16. [initializeTable] is what creates the table. On a store without
    it, quiet calls of [createToken], [validateToken] and [deleteToken]
    throw ER_NO_SUCH_TABLE and create nothing; after a quiet
    [initializeTable] the table is there, empty. *)
Theorem without_the_table z C u days rb tok now NOW fs :
  quiet fs = true ->
  exec (createToken z C u days rb now NOW) fs None = (Thrown ER_NO_SUCH_TABLE, None)
  /\ exec (validateToken C tok now NOW) fs None = (Thrown ER_NO_SUCH_TABLE, None)
  /\ exec (deleteToken C tok) fs None = (Thrown ER_NO_SUCH_TABLE, None)
  /\ exec (initializeTable NOW) fs None = (Returned tt, Some []).
Proof.
  intros Q. split; [| split; [| split]].
  - unfold quiet in Q.
    do 5 (run; try reflexivity; try (destruct fs as [|[] fs]; try discriminate Q)).
  - now rewrite (quiet_validateToken _ _ _ _ _ _ Q).
  - now rewrite (quiet_deleteToken _ _ _ _ Q).
  - now rewrite (quiet_initializeTable _ _ _ Q).
Qed.

Lemma without_the_table_witness :
  exec (createToken utc binary alice None (all_bytes x2a) 1793000000000 1793000000000)
       [false] None
  = (Thrown ER_NO_SUCH_TABLE, None)
  /\ exec (validateToken binary "aa" 1793000000000 1793000000000) [false] None
     = (Thrown ER_NO_SUCH_TABLE, None)
  /\ exec (deleteToken binary "aa") [false] None = (Thrown ER_NO_SUCH_TABLE, None)
  /\ exec (initializeTable 1793000000000) [false] None = (Returned tt, Some []).
Proof.
  apply (without_the_table utc binary alice None (all_bytes x2a) "aa"
           1793000000000 1793000000000 [false]).
  reflexivity.
Defined.

(** ** The routes *)

(** The callbacks, over the call of [createToken] they make. *)
Lemma auth_callback_exec z C env route session u accept rb now NOW fs t :
  exec (auth_callback z C env route session u accept rb now NOW) fs t
  = match session with
    | Some true =>
        match exec (createToken z C u None rb now NOW) fs t with
        | (Returned token, t') =>
            (Returned [remember_cookie env token;
                       if wants_html accept
                       then res_redirect "/login?success=true"
                       else res_json (callback_body route u true)], t')
        | (Thrown e, t') => (Returned [res_json (callback_body route u false)], t')
        end
    | _ =>
        (Returned [if wants_html accept
                   then res_redirect "/login?success=true"
                   else res_json (callback_body route u false)], t)
    end.
Proof.
  unfold exec, auth_callback, try_catch, bind, ret, wants_html, remember_cookie.
  destruct session as [[|]|].
  - destruct (createToken z C u None rb now NOW (mkWorld t None fs))
      as [[token|e] w]; [| reflexivity].
    destruct (truthy accept && _); reflexivity.
  - destruct (truthy accept && _); reflexivity.
  - destruct (truthy accept && _); reflexivity.
Qed.

Lemma remember_check_exec C token err now NOW fs t :
  exec (remember_check C token err now NOW) fs t
  = if truthy token then
      match exec (validateToken C (match token with Some s => s | None => EmptyString end)
                    now NOW) fs t with
      | (Returned (Some u), t') =>
          (Returned (if err
                     then req_login u
                          :: answer_not_authenticated 500 "Error creating session"
                     else answer_authenticated u), t')
      | (Returned None, t') =>
          (Returned (answer_not_authenticated 401 "Invalid or expired token"), t')
      | (Thrown e, t') =>
          (Returned (answer_not_authenticated 500 "Error validating token"), t')
      end
    else (Returned (answer_not_authenticated 400 "Token is required"), t).
Proof.
  unfold exec, remember_check, try_catch, bind, ret.
  destruct token as [[|c s]|]; try reflexivity.
  cbn [truthy].
  destruct (validateToken C (String c s) now NOW (mkWorld t None fs))
    as [[[u|]|e] w]; try reflexivity.
  destruct err; reflexivity.
Qed.

Lemma auth_logout_exec C rememberToken err fs t :
  exec (auth_logout C rememberToken err) fs t
  = let answer :=
      req_logout
      :: (if err then
            [res_status 500;
             res_json (JObject [("error", JString "Logout failed")])]
          else
            [res_json (JObject [("success", JBool true);
                                ("message", JString "Logged out successfully")])]) in
    if truthy rememberToken then
      match exec (deleteToken C (match rememberToken with
                                 | Some s => s
                                 | None => EmptyString
                                 end)) fs t with
      | (Returned _, t') => (Returned (res_clearCookie "remember_token" :: answer), t')
      | (Thrown _, t') => (Returned answer, t')
      end
    else (Returned answer, t).
Proof.
  unfold exec, auth_logout, try_catch, bind, ret.
  destruct rememberToken as [[|c s]|]; try reflexivity.
  cbn [truthy].
  destruct (deleteToken C (String c s) (mkWorld t None fs)) as [[b|e] w];
    reflexivity.
Qed.

Lemma remember_delete_exec C token fs t :
  exec (remember_delete C token) fs t
  = let deleted :=
      [res_json (JObject [("success", JBool true);
                          ("message", JString "Token deleted")])] in
    if truthy token then
      match exec (deleteToken C (match token with Some s => s | None => EmptyString end))
                 fs t with
      | (Returned _, t') => (Returned deleted, t')
      | (Thrown _, t') =>
          (Returned [res_status 500;
                     res_json (JObject [("success", JBool false);
                                        ("message", JString "Error deleting token")])],
           t')
      end
    else (Returned deleted, t).
Proof.
  unfold exec, remember_delete, try_catch, bind, ret.
  destruct token as [[|c s]|]; try reflexivity.
  cbn [truthy].
  destruct (deleteToken C (String c s) (mkWorld t None fs)) as [[b|e] w];
    reflexivity.
Qed.

Lemma auth_start_true q : auth_start q = Some true <-> q = Some "true".
Proof.
  unfold auth_start. destruct q as [s|].
  - destruct (String.eqb_spec s "true") as [->|N].
    + split; reflexivity.
    + split; intros H; injection H as H; [discriminate | contradiction].
  - split; discriminate.
Qed.

(** X17. A login that was not started with [remember=true], that string
    exactly, or whose session has lost the flag, issues nothing: the
    callback makes no call to the storage layer (the table is as before
    whatever faults are pending), sets no cookie, and answers with the
    redirect or with a body whose [rememberMe] is [false]. *)
Theorem auth_callback_without_remember
    z C env route session u accept rb now NOW fs t :
  session = None \/ (exists q, session = auth_start q /\ q <> Some "true") ->
  exec (auth_callback z C env route session u accept rb now NOW) fs t
  = (Returned [if wants_html accept
               then res_redirect "/login?success=true"
               else res_json (callback_body route u false)], t).
Proof.
  intros H. rewrite auth_callback_exec.
  destruct H as [-> | (q & -> & N)]; [reflexivity|].
  destruct (auth_start q) as [[|]|] eqn:E; try reflexivity.
  apply auth_start_true in E. contradiction.
Qed.

Lemma auth_callback_without_remember_witness :
  exec (auth_callback utc binary None google (auth_start (Some "True")) alice
          (Some "application/json") (all_bytes x2a) 1793000000000 1793000000000)
       [true] (Some [row_a])
  = (Returned [if wants_html (Some "application/json")
               then res_redirect "/login?success=true"
               else res_json (callback_body google alice false)], Some [row_a]).
Proof.
  apply (auth_callback_without_remember utc binary None google
           (auth_start (Some "True")) alice (Some "application/json")).
  right. exists (Some "True"). split; [reflexivity | discriminate].
Defined.

(** X18. The callbacks never throw, and a cookie they set is the cookie of
    a stored token: whatever the faults, every cookie among what the
    handler did is [remember_token], for 30 days of 24 hours, httpOnly and
    [SameSite=lax], and its value is the token of a row of the table, the
    row issued for [req.user]. *)
Theorem auth_callback_cookie_is_stored
    z C env route session u accept rb now NOW fs t :
  exists acts t',
    exec (auth_callback z C env route session u accept rb now NOW) fs t
    = (Returned acts, t')
    /\ forall name value maxAge httpOnly secure sameSite,
         In (res_cookie name value maxAge httpOnly secure sameSite) acts ->
         res_cookie name value maxAge httpOnly secure sameSite
         = remember_cookie env value
         /\ exists mail expires,
              In (issued u value mail expires NOW) (rows_of t').
Proof.
  rewrite auth_callback_exec.
  assert (forall a name value maxAge httpOnly secure sameSite,
             In (res_cookie name value maxAge httpOnly secure sameSite)
                [if wants_html accept
                 then res_redirect "/login?success=true"
                 else res_json a] -> False) as K.
  { intros a n v m h s ss [I | []]. destruct (wants_html accept); discriminate. }
  destruct session as [[|]|].
  - destruct (exec (createToken z C u None rb now NOW) fs t) as [[token|e] t'] eqn:E.
    + eexists _, _. split; [reflexivity|].
      intros n v m h s ss [I | I]; [| destruct (K _ _ _ _ _ _ _ I)].
      split.
      * rewrite <- I. unfold remember_cookie in *. now injection I as _ -> _ _ _ _.
      * unfold remember_cookie in I. injection I as _ <- _ _ _ _.
        apply createToken_cases in E.
        destruct E as
          [(e & H & _) | (rows & mail & expires & _ & _ & _ & _ & _ & T & ->)];
          [discriminate|].
        injection T as <-. exists mail, expires.
        cbn [rows_of]. apply in_or_app. right. left. reflexivity.
    + eexists _, _. split; [reflexivity|].
      intros n v m h s ss [I | []]. discriminate.
  - eexists _, _. split; [reflexivity|].
    intros n v m h s ss I. destruct (K _ _ _ _ _ _ _ I).
  - eexists _, _. split; [reflexivity|].
    intros n v m h s ss I. destruct (K _ _ _ _ _ _ _ I).
Qed.

(** X19. A token that cannot be issued does not fail the login. When the
    login asked to be remembered and [createToken] throws, the callback
    answers with the body of a successful login whose [rememberMe] is
    [false], also to a client that accepts [text/html] and would have been
    redirected; it sets no cookie and the table is as before. *)
Theorem auth_callback_storage_failure
    z C env route u accept rb now NOW fs t e :
  fst (exec (createToken z C u None rb now NOW) fs t) = Thrown e ->
  exec (auth_callback z C env route (Some true) u accept rb now NOW) fs t
  = (Returned [res_json (callback_body route u false)], t).
Proof.
  intros H. rewrite auth_callback_exec.
  destruct (exec (createToken z C u None rb now NOW) fs t) as [o t'] eqn:E.
  apply createToken_cases in E.
  destruct E as [(e' & -> & ->) | (rows & mail & expires & _ & _ & _ & _ & _ & -> & _)].
  - reflexivity.
  - discriminate.
Qed.

Lemma auth_callback_storage_failure_witness :
  exec (auth_callback utc binary None facebook (Some true) alice (Some "text/html")
          (all_bytes x2a) 1793000000000 1793000000000)
       [false; false; false; true] (Some [row_a])
  = (Returned [res_json (callback_body facebook alice false)], Some [row_a]).
Proof.
  apply (auth_callback_storage_failure utc binary None facebook alice
           (Some "text/html") (all_bytes x2a) 1793000000000 1793000000000
           [false; false; false; true] (Some [row_a]) ER_SOCKET_UNEXPECTED_CLOSE).
  reflexivity.
Defined.

Lemma toString_hex_truthy l :
  l <> [] -> truthy (Some (toString_hex l)) = true.
Proof. destruct l; [contradiction | reflexivity]. Qed.

(** What [validateToken] says of a token that [createToken] has just
    returned. *)
Lemma validateToken_after_createToken
    z C u days rb now NOW fs t tok t' now' NOW' fs' :
  exec (createToken z C u days rb now NOW) fs t = (Returned tok, t') ->
  quiet fs' = true ->
  exists expires,
    expiry z now days = Some expires
    /\ tok = generateToken rb
    /\ fst (exec (validateToken C tok now' NOW') fs' t')
       = if expires <? now' then Returned None
         else Returned (Some (denormalized u)).
Proof.
  intros H Q. apply createToken_cases in H.
  destruct H as [(e & H & _) | (rows & mail & expires & -> & M & X & U & _ & T & ->)];
    [discriminate|].
  injection T as ->. exists expires. split; [exact X|]. split; [reflexivity|].
  rewrite (quiet_validateToken _ _ _ _ _ _ Q), validateToken_run.
  rewrite (find_app_last _ _ _ U), token_is_issued, coll_refl.
  cbn [row.expiresAt issued].
  destruct (expires <? now'); [reflexivity|].
  unfold denormalized. simpl. rewrite M. reflexivity.
Qed.

(** X20. Remember me, from end to end. When a callback has set the cookie,
    a quiet [POST /auth/remember-check] with the value of the cookie, at a
    host clock at most 28 days later and with a session that can be
    created, logs the user in and answers [authenticated: true] with the
    denormalized fields of the user who logged in. *)
Theorem remember_me_round_trip
    z C env route u accept rb now NOW fs t acts t' value now' NOW' fs' :
  List.length (rb 32%nat) = 32%nat ->
  exec (auth_callback z C env route (Some true) u accept rb now NOW) fs t
  = (Returned acts, t') ->
  In (remember_cookie env value) acts ->
  quiet fs' = true ->
  now' <= now + 28 * Date.msPerDay ->
  fst (exec (remember_check C (Some value) false now' NOW') fs' t')
  = Returned (answer_authenticated (denormalized u)).
Proof.
  intros B H I Q L. rewrite auth_callback_exec in H.
  destruct (exec (createToken z C u None rb now NOW) fs t) as [[token|e] t1] eqn:E.
  - injection H as <- <-.
    assert (value = token) as ->.
    { destruct I as [I | [I | []]].
      - unfold remember_cookie in I. now injection I.
      - destruct (wants_html accept); discriminate I. }
    destruct (validateToken_after_createToken _ _ _ _ _ _ _ _ _ _ _ now' NOW' _ E Q)
      as (expires & X & -> & V).
    rewrite remember_check_exec.
    assert (truthy (Some (generateToken rb)) = true) as Tr.
    { unfold generateToken. apply toString_hex_truthy.
      intros N. rewrite N in B. discriminate B. }
    rewrite Tr.
    apply expiry_bounds in X. unfold days_or_default, Date.msPerDay in X, L.
    destruct (Z.ltb_spec expires now') as [K|K]; [lia|].
    destruct (exec (validateToken C (generateToken rb) now' NOW') fs' t1)
      as [o t2].
    cbn [fst] in V. subst o. reflexivity.
  - injection H as <- _. destruct I as [I | []]. discriminate I.
Qed.

Lemma remember_me_round_trip_witness :
  fst (exec (remember_check binary (Some (generateToken (all_bytes x2a))) false
               1793000000500 1793000000600) []
         (snd (exec (auth_callback utc binary (Some "production") google (Some true)
                       alice (Some "text/html") (all_bytes x2a)
                       1793000000000 1793000000000) [] (Some [row_c]))))
  = Returned (answer_authenticated (denormalized alice)).
Proof.
  apply (remember_me_round_trip utc binary (Some "production") google alice
           (Some "text/html") (all_bytes x2a) 1793000000000 1793000000000 []
           (Some [row_c])
           [remember_cookie (Some "production") (generateToken (all_bytes x2a));
            res_redirect "/login?success=true"]).
  - reflexivity.
  - vm_compute. reflexivity.
  - left. reflexivity.
  - reflexivity.
  - unfold Date.msPerDay. lia.
Defined.

(** X21. [POST /auth/remember-check] never throws and logs in holders of
    stored, live tokens only: whatever the faults, a user the handler
    passes to [req.login] is the snapshot of a row of the table with the
    token of the request whose [expiresAt] is not before the host clock.
    Without a token ([undefined], or the empty string) it answers 400 and
    makes no call to the storage layer. *)
Theorem remember_check_is_sound C token err now NOW fs t :
  exists acts t',
    exec (remember_check C token err now NOW) fs t = (Returned acts, t')
    /\ (forall u, In (req_login u) acts ->
          exists tok r,
            token = Some tok
            /\ In r (rows_of t)
            /\ token_is C tok r = true
            /\ now <= row.expiresAt r
            /\ u = snapshot r)
    /\ (truthy token = false ->
        acts = answer_not_authenticated 400 "Token is required" /\ t' = t).
Proof.
  rewrite remember_check_exec.
  assert (forall code message u,
             ~ In (req_login u) (answer_not_authenticated code message)) as K.
  { intros code message u [I | [I | []]]; discriminate I. }
  destruct token as [[|c s]|]; cbn [truthy].
  1, 3: eexists _, _; split; [reflexivity|];
    split; [intros u I; destruct (K _ _ _ I) | split; reflexivity].
  destruct (exec (validateToken C (String c s) now NOW) fs t) as [[[u|]|e] t'] eqn:E.
  - eexists _, _. split; [reflexivity|]. split; [| discriminate].
    intros u' I.
    assert (u' = u) as ->.
    { destruct err.
      - destruct I as [I | I]; [now injection I | destruct (K _ _ _ I)].
      - destruct I as [I | [I | []]]; [now injection I | discriminate I]. }
    assert (fst (exec (validateToken C (String c s) now NOW) fs t)
            = Returned (Some u)) as V by now rewrite E.
    apply validateToken_returns_a_live_row in V.
    destruct V as (r & F & L & ->).
    apply find_some in F. destruct F as [I' T].
    exists (String c s), r. repeat split; assumption.
  - eexists _, _. split; [reflexivity|]. split; [| discriminate].
    intros u I. destruct (K _ _ _ I).
  - eexists _, _. split; [reflexivity|]. split; [| discriminate].
    intros u I. destruct (K _ _ _ I).
Qed.

(** X22. The client cannot tell an expired token from an unknown one: a
    quiet [POST /auth/remember-check] answers both with the same 401 and
    the same message, and after it no row has the token. *)
Theorem remember_check_expired_or_unknown C c s now NOW fs rows :
  quiet fs = true ->
  find (token_is C (String c s)) rows = None
  \/ (exists r, find (token_is C (String c s)) rows = Some r
                /\ row.expiresAt r < now) ->
  exec (remember_check C (Some (String c s)) false now NOW) fs (Some rows)
  = (Returned (answer_not_authenticated 401 "Invalid or expired token"),
     Some (without_token C (String c s) rows))
  /\ existsb (token_is C (String c s)) (without_token C (String c s) rows) = false.
Proof.
  intros Q H. split; [| apply existsb_filter_negb].
  rewrite remember_check_exec. cbn [truthy].
  rewrite (quiet_validateToken _ _ _ _ _ _ Q), validateToken_run.
  destruct H as [F | (r & F & L)]; rewrite F.
  - apply filter_nil_find in F. unfold without_token.
    assert (filter (fun r => negb (token_is C (String c s) r)) rows = rows) as ->;
      [| reflexivity].
    clear Q. induction rows as [|a rows IH]; [reflexivity|].
    simpl in *. destruct (token_is C (String c s) a); [discriminate F|].
    simpl. now rewrite IH.
  - apply Z.ltb_lt in L. rewrite L. reflexivity.
Qed.

Lemma remember_check_expired_or_unknown_witness :
  exec (remember_check binary (Some "aa") false 1500 1500) [] (Some [row_a; row_b])
  = (Returned (answer_not_authenticated 401 "Invalid or expired token"),
     Some (without_token binary "aa" [row_a; row_b]))
  /\ existsb (token_is binary "aa") (without_token binary "aa" [row_a; row_b])
     = false.
Proof.
  apply (remember_check_expired_or_unknown binary "a"%char "a" 1500 1500 []
           [row_a; row_b]).
  - reflexivity.
  - right. exists row_a. split; [reflexivity | simpl; lia].
Defined.

(** X23. A failure of the update of [lastUsed] costs the holder of a valid
    token the login: when the token is found and not expired, and the
    UPDATE is the call that fails, [POST /auth/remember-check] answers 500,
    [req.login] is not called, and the table is as before. *)
Theorem remember_check_touch_failure C c s err now NOW fs rows r :
  find (token_is C (String c s)) rows = Some r ->
  now <= row.expiresAt r ->
  exec (remember_check C (Some (String c s)) err now NOW)
       (false :: false :: true :: fs) (Some rows)
  = (Returned (answer_not_authenticated 500 "Error validating token"), Some rows).
Proof.
  intros F L. rewrite remember_check_exec. cbn [truthy].
  apply filter_cons_find in F. destruct F as [rest F].
  apply Z.ltb_ge in L. run. rewrite F, L. reflexivity.
Qed.

Lemma remember_check_touch_failure_witness :
  exec (remember_check binary (Some "cc") false 4000 4001)
       [false; false; true] (Some [row_a; row_c])
  = (Returned (answer_not_authenticated 500 "Error validating token"),
     Some [row_a; row_c]).
Proof.
  apply (remember_check_touch_failure binary "c"%char "c" false 4000 4001 []
           [row_a; row_c] row_c).
  - reflexivity.
  - simpl. lia.
Defined.

Lemma deleteToken_throw_keeps C tok fs t e t' :
  exec (deleteToken C tok) fs t = (Thrown e, t') -> t' = t.
Proof.
  destruct fs as [|[] fs]; run.
  2: intros H; injection H as _ <-; reflexivity.
  all: try (destruct fs as [|[] fs]; run).
  all: destruct t as [rows|]; intros H; try discriminate H.
  all: injection H as _ <-; reflexivity.
Qed.

(** X24. [GET /auth/logout] never throws and always logs out: whatever the
    faults, what follows the cookie is [req.logout] and an answer that
    depends on [req.logout] alone. The cookie is cleared exactly when there
    was one and [deleteToken] did not throw (it is cleared also when no row
    had the token); when it is not cleared, the table is as before. *)
Theorem auth_logout_always_logs_out C rememberToken err fs t :
  exists cleared t',
    exec (auth_logout C rememberToken err) fs t
    = (Returned ((if cleared : bool then [res_clearCookie "remember_token"] else [])
                 ++ logout_answer err)%list, t')
    /\ (cleared = true
        <-> exists tok b,
              rememberToken = Some tok /\ truthy rememberToken = true
              /\ fst (exec (deleteToken C tok) fs t) = Returned b)
    /\ (cleared = false -> t' = t).
Proof.
  rewrite auth_logout_exec. cbv zeta. fold (logout_answer err).
  destruct (truthy rememberToken) eqn:Tr.
  - destruct rememberToken as [tok|]; [| discriminate Tr].
    destruct (exec (deleteToken C tok) fs t) as [[b|e] t'] eqn:E.
    + exists true, t'. split; [reflexivity|]. split; [| discriminate].
      split; [| reflexivity]. intros _. exists tok, b.
      split; [reflexivity|]. split; [reflexivity | now rewrite E].
    + exists false, t'. split; [reflexivity|]. split.
      * split; [discriminate|].
        intros (tok' & b & T & _ & H). injection T as <-.
        rewrite E in H. discriminate H.
      * intros _. apply (deleteToken_throw_keeps _ _ _ _ _ _ E).
  - exists false, t. split; [reflexivity|]. split; [| reflexivity].
    split; [discriminate|]. intros (tok' & b & _ & H & _). discriminate H.
Qed.

(** X25. After a quiet logout with the cookie, the token of the cookie does
    not authenticate any more: the cookie is cleared, no row has the token,
    and a quiet [POST /auth/remember-check] with it answers 401. *)
Theorem auth_logout_revokes_the_token C c s err fs rows now NOW fs' :
  quiet fs = true ->
  quiet fs' = true ->
  exec (auth_logout C (Some (String c s)) err) fs (Some rows)
    = (Returned (res_clearCookie "remember_token" :: logout_answer err),
       Some (without_token C (String c s) rows))
    /\ fst (exec (remember_check C (Some (String c s)) false now NOW) fs'
              (Some (without_token C (String c s) rows)))
       = Returned (answer_not_authenticated 401 "Invalid or expired token").
Proof.
  intros Q Q'. rewrite auth_logout_exec. cbv zeta. cbn [truthy].
  fold (logout_answer err).
  rewrite (quiet_deleteToken _ _ _ _ Q), deleteToken_run.
  split; [reflexivity|].
  rewrite remember_check_exec. cbn [truthy].
  rewrite (quiet_validateToken _ _ _ _ _ _ Q'), validateToken_run.
  rewrite find_without_token. reflexivity.
Qed.

Lemma auth_logout_revokes_the_token_witness :
  exec (auth_logout binary (Some "cc") false) [] (Some [row_a; row_c])
    = (Returned (res_clearCookie "remember_token" :: logout_answer false),
       Some (without_token binary "cc" [row_a; row_c]))
    /\ fst (exec (remember_check binary (Some "cc") false 4000 4001) [false]
              (Some (without_token binary "cc" [row_a; row_c])))
       = Returned (answer_not_authenticated 401 "Invalid or expired token").
Proof.
  apply (auth_logout_revokes_the_token binary "c"%char "c" false []
           [row_a; row_c] 4000 4001 [false]).
  - reflexivity.
  - reflexivity.
Defined.

(** X26. [POST /auth/remember-delete] does not tell whether there was a
    token: a quiet call answers [Token deleted] for a stored token, for an
    unknown one and without a token, and afterwards no row has the token.
    When the connection or the DELETE fails it answers 500 and the table
    is as before. *)
Theorem remember_delete_answers C token c s fs fs' rows :
  quiet fs = true ->
  exec (remember_delete C token) fs (Some rows)
  = (Returned [res_json (JObject [("success", JBool true);
                                  ("message", JString "Token deleted")])],
     Some (match token with
           | Some (String c' s') => without_token C (String c' s') rows
           | _ => rows
           end))
  /\ exec (remember_delete C (Some (String c s))) (true :: fs') (Some rows)
     = (Returned [res_status 500;
                  res_json (JObject [("success", JBool false);
                                     ("message", JString "Error deleting token")])],
        Some rows)
  /\ exec (remember_delete C (Some (String c s))) (false :: true :: fs') (Some rows)
     = (Returned [res_status 500;
                  res_json (JObject [("success", JBool false);
                                     ("message", JString "Error deleting token")])],
        Some rows).
Proof.
  intros Q. split; [| split; reflexivity].
  rewrite remember_delete_exec. cbv zeta.
  destruct token as [[|c' s']|]; cbn [truthy]; try reflexivity.
  rewrite (quiet_deleteToken _ _ _ _ Q), deleteToken_run. reflexivity.
Qed.

Lemma remember_delete_answers_witness :
  exec (remember_delete binary (Some "zz")) [false] (Some [row_a; row_b])
  = (Returned [res_json (JObject [("success", JBool true);
                                  ("message", JString "Token deleted")])],
     Some (match Some "zz" with
           | Some (String c' s') => without_token binary (String c' s') [row_a; row_b]
           | _ => [row_a; row_b]
           end))
  /\ exec (remember_delete binary (Some "aa")) [true] (Some [row_a; row_b])
     = (Returned [res_status 500;
                  res_json (JObject [("success", JBool false);
                                     ("message", JString "Error deleting token")])],
        Some [row_a; row_b])
  /\ exec (remember_delete binary (Some "aa")) [false; true] (Some [row_a; row_b])
     = (Returned [res_status 500;
                  res_json (JObject [("success", JBool false);
                                     ("message", JString "Error deleting token")])],
        Some [row_a; row_b]).
Proof.
  apply (remember_delete_answers binary (Some "zz") "a"%char "a" [false] []
           [row_a; row_b]).
  reflexivity.
Defined.

(** X27. Who can be remembered. The verify functions of Facebook and
    Microsoft accept a profile without [emails] and give a user whose
    e-mail is [null]. For that user a callback that was asked to remember
    answers the login with [rememberMe: false], sets no cookie and leaves
    the table as it was, whatever the faults. The verify function of
    Google gives users with an e-mail only. *)
Theorem no_email_no_token z C env route accept rb now NOW fs t p u :
  profile.emails p = None ->
  facebook_verify p = done u \/ microsoft_verify p = done u ->
  user.email u = None
  /\ exec (auth_callback z C env route (Some true) u accept rb now NOW) fs t
     = (Returned [res_json (callback_body route u false)], t)
  /\ forall p' u', google_verify p' = done u' -> user.email u' <> None.
Proof.
  intros N H.
  assert (user.email u = None) as M.
  { unfold facebook_verify, microsoft_verify in H. rewrite N in H.
    destruct H as [H | H].
    - destruct (profile.photos p) as [[|photo ?]|]; try discriminate H;
        injection H as <-; reflexivity.
    - injection H as <-. reflexivity. }
  split; [exact M|]. split.
  - rewrite auth_callback_exec.
    destruct (exec (createToken z C u None rb now NOW) fs t) as [o t'] eqn:E.
    apply createToken_cases in E.
    destruct E as [(e & -> & ->) | (rows & mail & _ & _ & M' & _)];
      [reflexivity|].
    rewrite M in M'. discriminate.
  - intros p' u'. unfold google_verify.
    destruct (profile.emails p') as [[|mail ?]|]; try discriminate;
      destruct (profile.photos p') as [[|photo ?]|]; try discriminate.
    intros G. injection G as <-. discriminate.
Qed.

Lemma no_email_no_token_witness :
  user.email (user.mk "3003" microsoft "Carol" None None) = None
  /\ exec (auth_callback utc binary None microsoft (Some true)
             (user.mk "3003" microsoft "Carol" None None) (Some "text/html")
             (all_bytes x2a) 1793000000000 1793000000000) [] (Some [row_a])
     = (Returned [res_json (callback_body microsoft
                              (user.mk "3003" microsoft "Carol" None None) false)],
        Some [row_a])
  /\ forall p' u', google_verify p' = done u' -> user.email u' <> None.
Proof.
  apply (no_email_no_token utc binary None microsoft (Some "text/html")
           (all_bytes x2a) 1793000000000 1793000000000 [] (Some [row_a])
           (profile.mk "3003" "Carol" None None)).
  - reflexivity.
  - right. reflexivity.
Defined.
